(** * NexusCore benchmark-baseline pipeline

    A shallow embedding of [benchmarks/py/extract_performance_metrics.py] and
    [benchmarks/py/compare_baselines.py], together with the parts of the
    Python runtime the two scripts rely on: [float()] and float arithmetic,
    [str] ordering and [list.sort], the [csv] reader and writer, text-mode
    files and [re.search] for the seven metric patterns.

    Text is modelled as [string] whose characters are code points below 256;
    the extractor's loop is also given on text of any code points
    ([Unicode]). Python floats are IEEE binary64 values of [SpecFloat]. *)

From Stdlib Require Import ZArith Ascii SpecFloat Bool Lia DecimalString.
From stdpp Require Import base option list gmap strings sorting.

Local Open Scope Z_scope.

(** ** Python runtime *)

Module Py.

(** Exceptions the two scripts can meet. *)
Inductive exn :=
| ValueError
| TypeError
| KeyError (key : string)
| ZeroDivisionError
| FileNotFoundError (path : string)
| IndexError
| CalledProcessError
| CsvError.

Inductive result (A : Type) :=
| Ok (a : A)
| Raise (e : exn).
Arguments Ok {A} a.
Arguments Raise {A} e.

Definition bind {A B} (m : result A) (k : A -> result B) : result B :=
  match m with
  | Ok a => k a
  | Raise e => Raise e
  end.

(** [try: body except (ValueError, TypeError): handler] *)
Definition try_except_ValueError_TypeError {A} (body : result A) (handler : A)
  : result A :=
  match body with
  | Raise ValueError | Raise TypeError => Ok handler
  | r => r
  end.

(** Values stored under a column name of a [csv.DictReader] row: a [str], or
    [None] for a column the row did not reach. *)
Definition cell := option string.

(** *** Characters *)

Definition code (c : ascii) : Z := Z.of_N (N_of_ascii c).

Definition is_digit (c : ascii) : bool := (48 <=? code c) && (code c <=? 57).

Definition digit_val (c : ascii) : Z := code c - 48.

(** [Py_ISSPACE]: tab, line feed, vertical tab, form feed, carriage return,
    space. *)
Definition is_space (c : ascii) : bool :=
  ((9 <=? code c) && (code c <=? 13)) || (code c =? 32).

Definition LF : ascii := "010"%char.
Definition CR : ascii := "013"%char.
Definition DQUOTE : ascii := "034"%char.
Definition COMMA : ascii := ","%char.

Fixpoint all_chars (p : ascii -> bool) (s : string) : bool :=
  match s with
  | EmptyString => true
  | String c s' => p c && all_chars p s'
  end.

Fixpoint map_chars (f : ascii -> ascii) (s : string) : string :=
  match s with
  | EmptyString => EmptyString
  | String c s' => String (f c) (map_chars f s')
  end.

Fixpoint drop_while (p : ascii -> bool) (s : string) : string :=
  match s with
  | EmptyString => EmptyString
  | String c s' => if p c then drop_while p s' else s
  end.

(** Longest prefix of decimal digits, and what follows it. *)
Fixpoint span_digits (s : string) : string * string :=
  match s with
  | EmptyString => (EmptyString, EmptyString)
  | String c s' =>
      if is_digit c
      then let '(d, r) := span_digits s' in (String c d, r)
      else (EmptyString, s)
  end.

Fixpoint digits_value (acc : Z) (s : string) : Z :=
  match s with
  | EmptyString => acc
  | String c s' => digits_value (10 * acc + digit_val c) s'
  end.

Definition lower (c : ascii) : ascii :=
  if (65 <=? code c) && (code c <=? 90)
  then ascii_of_N (Z.to_N (code c + 32)) else c.

(** *** Floats: IEEE binary64 *)

Definition prec : Z := 53.
Definition emax : Z := 1024.

Definition float := spec_float.

Definition float_of_Z (n : Z) : float := binary_normalize prec emax n 0 false.

Definition float_sub (x y : float) : float := SFsub prec emax x y.
Definition float_mul (x y : float) : float := SFmul prec emax x y.
Definition float_neg (x : float) : float := SFopp x.
Definition float_eqb (x y : float) : bool := SFeqb x y.
Definition float_ltb (x y : float) : bool := SFltb x y.

(** [x / y] on floats raises [ZeroDivisionError] when [y == 0.0]. *)
Definition float_div (x y : float) : result float :=
  if float_eqb y (S754_zero false) then Raise ZeroDivisionError
  else Ok (SFdiv prec emax x y).

(** The float nearest to [(-1)^sign * d * 10^e] (ties to even), as the
    correctly rounded [strtod] used by [float()] returns it; a magnitude
    too large becomes an infinity. *)
Definition float_of_decimal (sign : bool) (d e : Z) : float :=
  match d with
  | Zpos p =>
      if 0 <=? e
      then binary_normalize prec emax (if sign then - (d * 10 ^ e) else d * 10 ^ e) 0 false
      else
        let '(q, eq, loc) := SFdiv_core_binary prec emax d 0 (10 ^ (- e)) 0 in
        binary_round_aux prec emax sign q eq loc
  | _ => S754_zero sign
  end.

(** [_Py_string_to_number_with_underscores]: an underscore is dropped when
    it stands between two digits, any other underscore is an error. *)
Fixpoint strip_underscores (prev : ascii) (s : string) : option string :=
  match s with
  | EmptyString => if Ascii.eqb prev "_" then None else Some EmptyString
  | String c s' =>
      if Ascii.eqb c "_"
      then if is_digit prev then strip_underscores c s' else None
      else if Ascii.eqb prev "_" && negb (is_digit c) then None
      else option_map (String c) (strip_underscores c s')
  end.

(** Non-ASCII white space (U+0085 and U+00A0 below 256) is turned into a
    space before stripping. *)
Definition space_to_ascii (c : ascii) : ascii :=
  if (code c =? 133) || (code c =? 160) then " "%char else c.

Definition strip (s : string) : string :=
  String.rev (drop_while is_space (String.rev (drop_while is_space s))).

(** [str.strip()]: white space as [str.isspace] sees it below 256. *)
Definition is_unicode_space (c : ascii) : bool :=
  is_space c || ((28 <=? code c) && (code c <=? 31))
  || (code c =? 133) || (code c =? 160).

Definition str_strip (s : string) : string :=
  String.rev (drop_while is_unicode_space
                (String.rev (drop_while is_unicode_space s))).

Definition split_sign (s : string) : bool * string :=
  match s with
  | String "-" s' => (true, s')
  | String "+" s' => (false, s')
  | _ => (false, s)
  end.

(** The exponent part: [e] or [E], an optional sign and at least one digit;
    anything else leaves the text unconsumed. *)
Definition parse_exponent (s : string) : Z * string :=
  match s with
  | String c s' =>
      if Ascii.eqb (lower c) "e" then
        let '(neg, s'') := split_sign s' in
        let '(ds, rest) := span_digits s'' in
        match ds with
        | EmptyString => (0, s)
        | _ => ((if neg then - digits_value 0 ds else digits_value 0 ds), rest)
        end
      else (0, s)
  | EmptyString => (0, s)
  end.

Definition parse_inf_or_nan (sign : bool) (s : string) : option float :=
  let l := map_chars lower s in
  if String.eqb l "inf" || String.eqb l "infinity" then Some (S754_infinity sign)
  else if String.eqb l "nan" then Some S754_nan
  else None.

Definition parse_float (s : string) : option float :=
  let '(sign, s1) := split_sign s in
  let '(ip, s2) := span_digits s1 in
  let '(fp, s3) :=
    match s2 with
    | String "." s2' => span_digits s2'
    | _ => (EmptyString, s2)
    end in
  match ip, fp with
  | EmptyString, EmptyString => parse_inf_or_nan sign s1
  | _, _ =>
      let '(e, s4) := parse_exponent s3 in
      match s4 with
      | EmptyString =>
          Some (float_of_decimal sign (digits_value 0 (ip +:+ fp))
                  (e - Z.of_nat (String.length fp)))
      | _ => None
      end
  end.

(** [float(s)] for a [str]. *)
Definition float_of_string (s : string) : result float :=
  let s0 := map_chars space_to_ascii s in
  match (if all_chars (fun c => negb (Ascii.eqb c "_")) s0
         then Some s0 else strip_underscores "000" s0) with
  | None => Raise ValueError
  | Some s1 =>
      match strip s1 with
      | EmptyString => Raise ValueError
      | s2 => match parse_float s2 with
              | Some x => Ok x
              | None => Raise ValueError
              end
      end
  end.

(** [float(v)] for a cell: [float(None)] is a [TypeError]. *)
Definition float_of_cell (v : cell) : result float :=
  match v with
  | Some s => float_of_string s
  | None => Raise TypeError
  end.

(** *** Formatting a float with [+.2f]

    The exact binary value is rounded to two decimal places, ties to even;
    the sign is always printed and comes from the sign bit. *)

Definition string_of_Z (n : Z) : string :=
  NilZero.string_of_uint (N.to_uint (Z.to_N n)).

Definition round_half_even_div (num den : Z) : Z :=
  let q := num / den in
  let r := num mod den in
  match 2 * r ?= den with
  | Lt => q
  | Gt => q + 1
  | Eq => if Z.even q then q else q + 1
  end.

Definition hundredths (m : positive) (e : Z) : Z :=
  if 0 <=? e then Z.pos m * 2 ^ e * 100
  else round_half_even_div (Z.pos m * 100) (2 ^ (- e)).

Definition fixed2 (n : Z) : string :=
  string_of_Z (n / 100) +:+ "." +:+
  string_of_Z (n mod 100 / 10) +:+ string_of_Z (n mod 10).

Definition sign_str (s : bool) : string := if s then "-" else "+".

Definition format_plus_2f (x : float) : string :=
  match x with
  | S754_nan => "+nan"
  | S754_infinity s => sign_str s +:+ "inf"
  | S754_zero s => sign_str s +:+ "0.00"
  | S754_finite s m e => sign_str s +:+ fixed2 (hundredths m e)
  end.

(** *** [list.sort(key=...)]

    The keys are computed first, so a key function that raises leaves the
    list as it was. The sort is stable and compares keys with [<] only;
    [<] between [None] and anything is a [TypeError], and with two or more
    elements every key takes part in some comparison. Any stable sort
    yields the same list; insertion from the right is used here. *)

Fixpoint mapM {A B} (f : A -> result B) (l : list A) : result (list B) :=
  match l with
  | [] => Ok []
  | x :: l' => bind (f x) (fun y => bind (mapM f l') (fun ys => Ok (y :: ys)))
  end.

Section StableSort.
Context {A : Type} (key : A -> string).

(** [x] comes from the left of everything in [l]: it goes before the first
    element that is not smaller than it. *)
Fixpoint insert_left (x : A) (l : list A) : list A :=
  match l with
  | [] => [x]
  | y :: l' =>
      if String.ltb (key y) (key x) then y :: insert_left x l'
      else x :: l
  end.

Fixpoint stable_sort (l : list A) : list A :=
  match l with
  | [] => []
  | x :: l' => insert_left x (stable_sort l')
  end.

(** The order of the keys, as [<] on [str] gives it. *)
Definition key_le (x y : A) : Prop := String.ltb (key y) (key x) = false.
Definition key_lt (x y : A) : Prop := String.ltb (key x) (key y) = true.
End StableSort.

Definition is_None {A} (o : option A) : bool :=
  match o with None => true | Some _ => false end.

Definition list_sort {A} (key : A -> result cell) (l : list A)
  : result (list A) :=
  bind (mapM key l) (fun keys =>
  if (2 <=? length l)%nat && existsb is_None keys then Raise TypeError
  else Ok (map snd (stable_sort (fun kx => default EmptyString (fst kx))
                      (zip keys l)))).

End Py.

(** ** The [csv] module, dialect [excel]

    Delimiter [,], quote character code 34, [doublequote], line terminator
    CR LF, [QUOTE_MINIMAL], not strict, no escape character. *)

Module Csv.
Import Py.

(** *** Writer *)

Definition needs_quote (c : ascii) : bool :=
  Ascii.eqb c COMMA || Ascii.eqb c DQUOTE || Ascii.eqb c CR || Ascii.eqb c LF.

Fixpoint double_quotes (s : string) : string :=
  match s with
  | EmptyString => EmptyString
  | String c s' =>
      if Ascii.eqb c DQUOTE
      then String DQUOTE (String DQUOTE (double_quotes s'))
      else String c (double_quotes s')
  end.

(** A field is quoted when it holds a character that needs it, or when it
    is the empty only field of its row. *)
Definition is_quoted (alone : bool) (s : string) : bool :=
  negb (all_chars (fun c => negb (needs_quote c)) s)
  || (alone && String.eqb s EmptyString).

Definition write_field (alone : bool) (s : string) : string :=
  if is_quoted alone s
  then String DQUOTE (double_quotes s +:+ String DQUOTE EmptyString)
  else s.

Fixpoint join_fields (l : list string) : string :=
  match l with
  | [] => EmptyString
  | [f] => f
  | f :: l' => f +:+ String COMMA (join_fields l')
  end.

Definition lineterminator : string := String CR (String LF EmptyString).

(** [writer.writerow(row)]: the text written to the file. *)
Definition writerow (row : list string) : string :=
  join_fields (map (write_field (length row =? 1)%nat) row) +:+ lineterminator.

(** [DictWriter._dict_to_list] with [extrasaction='raise'], [restval='']. *)
Definition dict_to_list (fieldnames : list string) (rowdict : gmap string string)
  : result (list string) :=
  if decide (dom rowdict ⊆ list_to_set fieldnames)
  then Ok (map (fun k => default EmptyString (rowdict !! k)) fieldnames)
  else Raise ValueError.

Definition DictWriter_writeheader (fieldnames : list string) : string :=
  writerow fieldnames.

Definition DictWriter_writerow (fieldnames : list string)
  (rowdict : gmap string string) : result string :=
  bind (dict_to_list fieldnames rowdict) (fun l => Ok (writerow l)).

(** *** Reader *)

Inductive state :=
| START_RECORD
| START_FIELD
| IN_FIELD
| IN_QUOTED_FIELD
| QUOTE_IN_QUOTED_FIELD
| EAT_CRNL.

Record parser := { st : state; field : string; fields : list string }.

Definition parse_reset : parser :=
  {| st := START_RECORD; field := EmptyString; fields := [] |}.

Definition set_state (s : state) (p : parser) : parser :=
  {| st := s; field := field p; fields := fields p |}.

Definition parse_save_field (p : parser) : parser :=
  {| st := st p; field := EmptyString; fields := fields p ++ [field p] |}.

(** [csv.field_size_limit()], at its default. *)
Definition field_limit : Z := 131072.

Definition parse_add_char (c : ascii) (p : parser) : result parser :=
  if field_limit <=? Z.of_nat (String.length (field p)) then Raise CsvError
  else Ok {| st := st p; field := field p +:+ String c EmptyString;
             fields := fields p |}.

Definition is_newline (c : ascii) : bool := Ascii.eqb c LF || Ascii.eqb c CR.

Definition start_field (p : parser) (c : ascii) : result parser :=
  if is_newline c then Ok (set_state EAT_CRNL (parse_save_field p))
  else if Ascii.eqb c DQUOTE then Ok (set_state IN_QUOTED_FIELD p)
  else if Ascii.eqb c COMMA then Ok (set_state START_FIELD (parse_save_field p))
  else bind (parse_add_char c p) (fun p' => Ok (set_state IN_FIELD p')).

(** [parse_process_char] on a character of the line. *)
Definition parse_process_char (p : parser) (c : ascii) : result parser :=
  match st p with
  | START_RECORD =>
      if is_newline c then Ok (set_state EAT_CRNL p)
      else start_field p c
  | START_FIELD => start_field p c
  | IN_FIELD =>
      if is_newline c then Ok (set_state EAT_CRNL (parse_save_field p))
      else if Ascii.eqb c COMMA
      then Ok (set_state START_FIELD (parse_save_field p))
      else parse_add_char c p
  | IN_QUOTED_FIELD =>
      if Ascii.eqb c DQUOTE then Ok (set_state QUOTE_IN_QUOTED_FIELD p)
      else parse_add_char c p
  | QUOTE_IN_QUOTED_FIELD =>
      if Ascii.eqb c DQUOTE
      then bind (parse_add_char c p) (fun p' => Ok (set_state IN_QUOTED_FIELD p'))
      else if Ascii.eqb c COMMA
      then Ok (set_state START_FIELD (parse_save_field p))
      else if is_newline c then Ok (set_state EAT_CRNL (parse_save_field p))
      else bind (parse_add_char c p) (fun p' => Ok (set_state IN_FIELD p'))
  | EAT_CRNL =>
      if is_newline c then Ok p else Raise CsvError
  end.

(** [parse_process_char] on the end-of-line marker sent after each line. *)
Definition parse_process_eol (p : parser) : parser :=
  match st p with
  | START_RECORD => p
  | START_FIELD | IN_FIELD | QUOTE_IN_QUOTED_FIELD =>
      set_state START_RECORD (parse_save_field p)
  | IN_QUOTED_FIELD => p
  | EAT_CRNL => set_state START_RECORD p
  end.

Fixpoint parse_line (p : parser) (line : string) : result parser :=
  match line with
  | EmptyString => Ok (parse_process_eol p)
  | String c line' =>
      bind (parse_process_char p c) (fun p' => parse_line p' line')
  end.

Definition is_IN_QUOTED_FIELD (s : state) : bool :=
  match s with IN_QUOTED_FIELD => true | _ => false end.

Definition is_START_RECORD (s : state) : bool :=
  match s with START_RECORD => true | _ => false end.

(** The rows the reader yields over the lines of its input: a record ends
    when a line leaves the parser in [START_RECORD]; at the end of the
    input a record left open inside quotes is closed. *)
Fixpoint reader (p : parser) (lines : list string) : result (list (list string)) :=
  match lines with
  | [] =>
      if negb (String.eqb (field p) EmptyString) || is_IN_QUOTED_FIELD (st p)
      then Ok [fields (parse_save_field p)]
      else Ok []
  | line :: lines' =>
      bind (parse_line p line) (fun p' =>
      if is_START_RECORD (st p')
      then bind (reader parse_reset lines') (fun rows => Ok (fields p' :: rows))
      else reader p' lines')
  end.

(** *** DictReader *)

(** A row as [DictReader] returns it: the named columns, and under the key
    [None] ([restkey]) the values beyond the last column name. *)
Record row := { cols : gmap string cell; restkey : option (list string) }.

Definition dict_zip (names values : list string) : gmap string cell :=
  foldl (fun d kv => <[fst kv := Some (snd kv)]> d) ∅ (zip names values).

Definition fromkeys_None (names : list string) (d : gmap string cell)
  : gmap string cell :=
  foldl (fun d k => <[k := None]> d) d names.

Definition dict_row (fieldnames values : list string) : row :=
  let d := dict_zip fieldnames values in
  let lf := length fieldnames in
  let lr := length values in
  if (lf <? lr)%nat then {| cols := d; restkey := Some (drop lf values) |}
  else {| cols := fromkeys_None (drop lr fieldnames) d; restkey := None |}.

Definition is_nil {A} (l : list A) : bool :=
  match l with [] => true | _ => false end.

(** The first row read gives the column names; empty rows after it are
    skipped. *)
Definition DictReader (rows : list (list string)) : list row :=
  match rows with
  | [] => []
  | fieldnames :: data =>
      map (dict_row fieldnames) (filter (fun r => negb (is_nil r)) data)
  end.

End Csv.

(** ** Files *)

Module File.
Import Py.

(** The file system: regular files by path. *)
Abbreviation fs := (gmap string string).

(** Universal newlines on reading (a file opened in text mode without
    [newline='']): CR LF and a lone CR both become LF. *)
Fixpoint universal_newlines (s : string) : string :=
  match s with
  | EmptyString => EmptyString
  | String c s' =>
      if Ascii.eqb c CR then
        String LF
          match s' with
          | String c' s'' =>
              if Ascii.eqb c' LF then universal_newlines s''
              else universal_newlines s'
          | EmptyString => EmptyString
          end
      else String c (universal_newlines s')
  end.

(** Iterating a text file: lines end after each LF and keep it. *)
Fixpoint lines_from (cur : string) (s : string) : list string :=
  match s with
  | EmptyString =>
      match cur with EmptyString => [] | _ => [cur] end
  | String c s' =>
      if Ascii.eqb c LF
      then (cur +:+ String LF EmptyString) :: lines_from EmptyString s'
      else lines_from (cur +:+ String c EmptyString) s'
  end.

Definition text_lines (content : string) : list string :=
  lines_from EmptyString (universal_newlines content).

(** [open(path, 'r')] *)
Definition open_r (files : fs) (path : string) : result string :=
  match files !! path with
  | Some content => Ok content
  | None => Raise (FileNotFoundError path)
  end.

(** [os.path.isfile(path)] *)
Definition isfile (files : fs) (path : string) : bool :=
  bool_decide (is_Some (files !! path)).

(** Writing [data] to a file opened with [open(path, 'a', newline='')]: the
    file is created if absent, the text goes to its end untranslated. *)
Definition append_to (files : fs) (path : string) (data : string) : fs :=
  <[path := default EmptyString (files !! path) +:+ data]> files.

End File.

(** ** [re.search] for the metric patterns

    Each pattern of the extractor is a literal, the group [(\d+)] and a
    literal. In a [str] pattern the class [\d] is every Unicode decimal
    digit; of the code points below 256, which the strings here hold, those
    are the ten ASCII digits. [Unicode] has the same matcher on text of any
    code points, and [UnicodeFacts.latin1_search] relates the two. *)

Module Re.
Import Py.

Record pattern := { before : string; after : string }.

(** Matching a literal at the start of [s]: what follows it. *)
Fixpoint match_literal (lit s : string) : option string :=
  match lit with
  | EmptyString => Some s
  | String c lit' =>
      match s with
      | String c' s' => if Ascii.eqb c c' then match_literal lit' s' else None
      | EmptyString => None
      end
  end.

(** [(\d+)] followed by the literal [lit]: the group takes as many digits
    as it can and gives digits back until [lit] matches. *)
Fixpoint match_digits (lit s : string) : option string :=
  match s with
  | String c s' =>
      if is_digit c then
        match match_digits lit s' with
        | Some g => Some (String c g)
        | None =>
            match match_literal lit s' with
            | Some _ => Some (String c EmptyString)
            | None => None
            end
        end
      else None
  | EmptyString => None
  end.

Definition match_at (p : pattern) (s : string) : option string :=
  match match_literal (before p) s with
  | Some rest => match_digits (after p) rest
  | None => None
  end.

(** [re.search(p, s)]: [group(1)] of the leftmost match, if any. *)
Fixpoint search (p : pattern) (s : string) : option string :=
  match match_at p s with
  | Some g => Some g
  | None =>
      match s with
      | EmptyString => None
      | String _ s' => search p s'
      end
  end.

End Re.

(** ** [extract_performance_metrics.py] *)

Module ExtractMetrics.
Import Py.

(** What the script asks of its host: the date, [git rev-parse HEAD]
    (decoded output, or nothing when the command fails), the CPU and RAM
    query of [get_system_info], and [platform.system()] and
    [platform.release()]. *)
Record host := {
  today : string;
  git_rev_parse : option string;
  system_info : result (string * string);
  platform_system : string;
  platform_release : string;
}.

Definition get_system_info (h : host) : result (string * string) :=
  system_info h.

Definition get_git_commit_hash (h : host) : string :=
  match git_rev_parse h with
  | Some out => str_strip out
  | None => "TBD"
  end.

Definition patterns : list (string * Re.pattern) :=
  [ ("FileOpenTime", {| Re.before := "File open time: "; Re.after := "ms" |});
    ("FileSaveTime", {| Re.before := "File save time: "; Re.after := "ms" |});
    ("MemoryUsage", {| Re.before := "Memory usage: "; Re.after := "MB" |});
    ("TextInsertionTime",
      {| Re.before := "Text insertion time: "; Re.after := "ms" |});
    ("NavigationTime", {| Re.before := "Navigation time: "; Re.after := "ms" |});
    ("ScrollingTime", {| Re.before := "Scrolling time: "; Re.after := "ms" |});
    ("SearchReplaceTime",
      {| Re.before := "Search/Replace time: "; Re.after := "ms" |}) ].

Definition fieldnames : list string :=
  [ "Date"; "CommitHash"; "CPUModel"; "RAM"; "OS"; "BuildConfig";
    "FileOpenTime"; "FileSaveTime"; "MemoryUsage"; "TextInsertionTime";
    "NavigationTime"; "ScrollingTime"; "SearchReplaceTime" ].

(** The loop over [patterns.items()]. *)
Definition extract_patterns (content : string) (metrics : gmap string string)
  : gmap string string :=
  foldl (fun m np =>
           <[fst np := match Re.search (snd np) content with
                       | Some g => g
                       | None => "N/A"
                       end]> m)
        metrics patterns.

(** The record of one run, before it is written. *)
Definition build_metrics (h : host) (files : File.fs)
  (input_file build_config : string) : result (gmap string string) :=
  let date := today h in
  let commit := get_git_commit_hash h in
  bind (get_system_info h) (fun info0 =>
  bind (get_system_info h) (fun info1 =>
  let metrics : gmap string string :=
    <["BuildConfig" := build_config]>
    (<["OS" := platform_system h +:+ " " +:+ platform_release h]>
    (<["RAM" := snd info1]>
    (<["CPUModel" := fst info0]>
    (<["CommitHash" := commit]>
    (<["Date" := date]> ∅))))) in
  bind (File.open_r files input_file) (fun raw =>
  let content := File.universal_newlines raw in
  Ok (extract_patterns content metrics)))).

Definition extract_metrics (h : host) (files : File.fs)
  (input_file output_file build_config : string) : result File.fs :=
  bind (build_metrics h files input_file build_config) (fun metrics =>
  let file_exists := File.isfile files output_file in
  let files1 := File.append_to files output_file EmptyString in
  let files2 :=
    if negb file_exists
    then File.append_to files1 output_file (Csv.DictWriter_writeheader fieldnames)
    else files1 in
  bind (Csv.DictWriter_writerow fieldnames metrics) (fun text =>
  Ok (File.append_to files2 output_file text))).

End ExtractMetrics.

(** ** [compare_baselines.py] *)

Module CompareBaselines.
Import Py.

Definition load_baselines (files : File.fs) (csv_file : string)
  : result (list Csv.row) :=
  bind (File.open_r files csv_file) (fun content =>
  bind (Csv.reader Csv.parse_reset (File.text_lines content)) (fun rows =>
  Ok (Csv.DictReader rows))).

(** Values held by the comparison dict. *)
Inductive pyval :=
| PStr (s : string)
| PNone
| PFloat (x : float).

Definition of_cell (c : cell) : pyval :=
  match c with Some s => PStr s | None => PNone end.

Definition NA : pyval := PStr "N/A".

Definition calculate_percentage_change (old new : cell) : result pyval :=
  try_except_ValueError_TypeError
    (bind (float_of_cell old) (fun old_val =>
     bind (float_of_cell new) (fun new_val =>
     if float_eqb old_val (float_of_Z 0) then Ok NA
     else
       bind (float_div (float_sub new_val old_val) old_val) (fun q =>
       Ok (PFloat (float_mul q (float_of_Z 100)))))))
    NA.

(** [r[k]] on a row. *)
Definition getitem (r : Csv.row) (k : string) : result cell :=
  match Csv.cols r !! k with
  | Some v => Ok v
  | None => Raise (KeyError k)
  end.

(** [l[-1]] and [l[-2]]. *)
Definition last1 {A} (l : list A) : result A :=
  match rev l with
  | x :: _ => Ok x
  | _ => Raise IndexError
  end.

Definition last2 {A} (l : list A) : result A :=
  match rev l with
  | _ :: x :: _ => Ok x
  | _ => Raise IndexError
  end.

Definition metrics : list string :=
  [ "FileOpenTime"; "FileSaveTime"; "MemoryUsage"; "TextInsertionTime";
    "NavigationTime"; "ScrollingTime"; "SearchReplaceTime" ].

Definition change_key (metric : string) : string := metric +:+ "_Change".

(** The loop over [metrics]. *)
Fixpoint compare_metrics (previous latest : Csv.row) (ms : list string)
  (comparison : gmap string pyval) : result (gmap string pyval) :=
  match ms with
  | [] => Ok comparison
  | metric :: ms' =>
      bind (getitem previous metric) (fun old =>
      bind (getitem latest metric) (fun new =>
      bind (calculate_percentage_change old new) (fun change =>
      compare_metrics previous latest ms'
        (<[change_key metric := change]> comparison))))
  end.

(** What follows the sort in [compare_baselines]. *)
Definition build_comparison (baselines : list Csv.row)
  : result (gmap string pyval) :=
  bind (last1 baselines) (fun latest =>
  bind (last2 baselines) (fun previous =>
  bind (getitem latest "Date") (fun d =>
  bind (getitem previous "Date") (fun pd =>
  bind (getitem latest "CommitHash") (fun c =>
  bind (getitem previous "CommitHash") (fun pc =>
  bind (getitem latest "BuildConfig") (fun b =>
  bind (getitem previous "BuildConfig") (fun pb =>
  let comparison : gmap string pyval :=
    <["PreviousBuildConfig" := of_cell pb]>
    (<["BuildConfig" := of_cell b]>
    (<["PreviousCommitHash" := of_cell pc]>
    (<["CommitHash" := of_cell c]>
    (<["PreviousDate" := of_cell pd]>
    (<["Date" := of_cell d]> ∅))))) in
  compare_metrics previous latest metrics comparison)))))))).

(** A call either returns, with what it printed and the caller's list
    object as the call left it, or raises. *)
Inductive outcome (A : Type) :=
| Returns (stdout : list string) (baselines : list Csv.row) (v : A)
| Raises (e : exn).
Arguments Returns {A} stdout baselines v.
Arguments Raises {A} e.

Definition compare_baselines (baselines : list Csv.row)
  : outcome (option (gmap string pyval)) :=
  if (length baselines <? 2)%nat
  then Returns ["Need at least 2 baselines for comparison"] baselines None
  else
    match list_sort (fun x => getitem x "Date") baselines with
    | Raise e => Raises e
    | Ok sorted =>
        match build_comparison sorted with
        | Raise e => Raises e
        | Ok comparison => Returns [] sorted (Some comparison)
        end
    end.

(** *** The report *)

Definition nl : string := String LF EmptyString.

Section Report.
(** [str(x)] of a float is only asked for a float stored under one of the
    six overview keys, which [compare_baselines] never does; it is left
    to the caller of the model. *)
Variable float_repr : float -> string.

Definition str (v : pyval) : string :=
  match v with
  | PStr s => s
  | PNone => "None"
  | PFloat x => float_repr x
  end.

Definition lookup_key (comparison : gmap string pyval) (k : string)
  : result pyval :=
  match comparison !! k with
  | Some v => Ok v
  | None => Raise (KeyError k)
  end.

(** The body of the loop: [change] as the table shows it. *)
Definition render_change (change : pyval) : result string :=
  match change with
  | PStr s =>
      if String.eqb s "N/A" then Ok s else Raise ValueError
  | PNone => Raise TypeError
  | PFloat x => Ok (format_plus_2f x +:+ "%")
  end.

Fixpoint render_rows (comparison : gmap string pyval) (ms : list string)
  (report : string) : result string :=
  match ms with
  | [] => Ok report
  | metric :: ms' =>
      bind (lookup_key comparison (change_key metric)) (fun change =>
      bind (render_change change) (fun text =>
      render_rows comparison ms'
        (report +:+ "| " +:+ metric +:+ " | " +:+ text +:+ " |" +:+ nl)))
  end.

Definition generate_markdown_report (comparison : gmap string pyval)
  : result string :=
  bind (lookup_key comparison "Date") (fun d =>
  bind (lookup_key comparison "PreviousDate") (fun pd =>
  bind (lookup_key comparison "CommitHash") (fun c =>
  bind (lookup_key comparison "PreviousCommitHash") (fun pc =>
  bind (lookup_key comparison "BuildConfig") (fun b =>
  bind (lookup_key comparison "PreviousBuildConfig") (fun pb =>
  let report :=
    "# Performance Comparison Report" +:+ nl +:+ nl +:+
    "## Overview" +:+ nl +:+
    "- **Date**: " +:+ str d +:+ nl +:+
    "- **Previous Date**: " +:+ str pd +:+ nl +:+
    "- **Commit**: " +:+ str c +:+ nl +:+
    "- **Previous Commit**: " +:+ str pc +:+ nl +:+
    "- **Build Config**: " +:+ str b +:+ nl +:+
    "- **Previous Build Config**: " +:+ str pb +:+ nl +:+ nl +:+
    "## Performance Changes" +:+ nl +:+ nl +:+
    "| Metric | Change |" +:+ nl +:+
    "|--------|--------|" +:+ nl in
  render_rows comparison metrics report)))))).

(** *** [main] *)

Inductive exit :=
| Finished
| SysExit (status : Z)
| Uncaught (e : exn).

Record run := { run_files : File.fs; run_stdout : list string; run_exit : exit }.

Definition output_file : string := "docs/performance_comparisons.md".

(** [argv] is [sys.argv]. The report is written on a platform whose line
    separator is LF; directories are not modelled. *)
Definition main (argv : list string) (files : File.fs) : run :=
  match argv with
  | [_; baseline_file] =>
      match load_baselines files baseline_file with
      | Raise e => {| run_files := files; run_stdout := []; run_exit := Uncaught e |}
      | Ok baselines =>
          match compare_baselines baselines with
          | Raises e =>
              {| run_files := files; run_stdout := []; run_exit := Uncaught e |}
          | Returns out _ None =>
              {| run_files := files; run_stdout := out; run_exit := Finished |}
          | Returns out _ (Some comparison) =>
              if bool_decide (comparison = ∅)
              then {| run_files := files; run_stdout := out; run_exit := Finished |}
              else
                match generate_markdown_report comparison with
                | Raise e =>
                    {| run_files := files; run_stdout := out;
                       run_exit := Uncaught e |}
                | Ok report =>
                    {| run_files := <[output_file := report]> files;
                       run_stdout :=
                         out ++ ["Comparison report written to " +:+ output_file];
                       run_exit := Finished |}
                end
          end
      end
  | _ =>
      {| run_files := files;
         run_stdout := ["Usage: python compare_baselines.py <baseline_file>"];
         run_exit := SysExit 1 |}
  end.
End Report.

End CompareBaselines.

(** ** Vocabulary of the statements *)

Module Ledger.
Import Py.

(** The columns [compare_baselines] reads. *)
Definition compared_columns : list string :=
  [ "Date"; "CommitHash"; "BuildConfig" ] ++ CompareBaselines.metrics.

Definition is_Some_b {A} (o : option A) : bool :=
  match o with Some _ => true | None => false end.

(** A row that carries every column the comparison reads, with a [str]
    in its [Date] column. *)
Definition has_columns (r : Csv.row) : bool :=
  is_Some_b (mjoin (Csv.cols r !! "Date"))
  && forallb (fun k => is_Some_b (Csv.cols r !! k)) compared_columns.

Definition date_of (r : Csv.row) : string :=
  default EmptyString (mjoin (Csv.cols r !! "Date")).

(** The column [k] of [r], [None] also when the column is absent. *)
Definition column (r : Csv.row) (k : string) : cell :=
  mjoin (Csv.cols r !! k).

Definition sort_by_date (l : list Csv.row) : list Csv.row :=
  stable_sort date_of l.

(** Non-decreasing in [Date]. *)
Definition date_le (r1 r2 : Csv.row) : Prop :=
  String.ltb (date_of r2) (date_of r1) = false.

(** A metric value as the extractor writes it. *)
Definition metric_value (v : string) : Prop :=
  v = "N/A" \/ (v <> EmptyString /\ all_chars is_digit v = true).

(** What the extractor's loop stores for one pattern. *)
Definition found (p : Re.pattern) (content : string) : string :=
  match Re.search p content with
  | Some g => g
  | None => "N/A"
  end.

(** The names of the tracked metrics, as the extractor lists them. *)
Definition metric_names : list string := map fst ExtractMetrics.patterns.

(** [compare]'s percentage formula on floats. *)
Definition percentage (previous latest : float) : float :=
  float_mul (SFdiv prec emax (float_sub latest previous) previous)
            (float_of_Z 100).

(** The change [compare] stores for a metric whose previous and latest
    cells are [old] and [new]. *)
Definition change_of (old new : cell) : CompareBaselines.pyval :=
  match CompareBaselines.calculate_percentage_change old new with
  | Ok v => v
  | Raise _ => CompareBaselines.NA
  end.

(** The dict [compare_baselines] builds from its two rows. *)
Definition comparison_of (previous latest : Csv.row)
  : gmap string CompareBaselines.pyval :=
  foldl (fun c m =>
           <[CompareBaselines.change_key m :=
               change_of (column previous m) (column latest m)]> c)
        (<["PreviousBuildConfig" :=
             CompareBaselines.of_cell (column previous "BuildConfig")]>
        (<["BuildConfig" :=
             CompareBaselines.of_cell (column latest "BuildConfig")]>
        (<["PreviousCommitHash" :=
             CompareBaselines.of_cell (column previous "CommitHash")]>
        (<["CommitHash" :=
             CompareBaselines.of_cell (column latest "CommitHash")]>
        (<["PreviousDate" :=
             CompareBaselines.of_cell (column previous "Date")]>
        (<["Date" :=
             CompareBaselines.of_cell (column latest "Date")]> ∅))))))
        CompareBaselines.metrics.

(** The sign bit of a float that is not a NaN. *)
Definition sign_bit (x : float) : option bool :=
  match x with
  | S754_zero s | S754_infinity s | S754_finite s _ _ => Some s
  | S754_nan => None
  end.

Definition is_finite_nonzero (x : float) : bool :=
  match x with S754_finite _ _ _ => true | _ => false end.

Definition is_zero (x : float) : bool :=
  match x with S754_zero _ => true | _ => false end.

(** Two rows of a ledger written by the extractor, a month apart. *)
Definition row_jan : Csv.row :=
  Csv.dict_row ExtractMetrics.fieldnames
    [ "2024-01-01"; "1a2b3c"; "cpu"; "32GB"; "Linux 6.1"; "Release";
      "100"; "20"; "0"; "N/A"; "7"; "8"; "9" ].

Definition row_feb : Csv.row :=
  Csv.dict_row ExtractMetrics.fieldnames
    [ "2024-02-01"; "4d5e6f"; "cpu"; "32GB"; "Linux 6.1"; "Release";
      "150"; "10"; "50"; "5"; "7"; "N/A"; "0" ].

(** The reader seen one character at a time. [feed] sends the characters
    of a piece of a line; [flat] reads a text whose line feeds each end a
    line, [mid] telling whether the current line has a character yet. *)
Fixpoint feed (p : Csv.parser) (s : string) : result Csv.parser :=
  match s with
  | EmptyString => Ok p
  | String c s' => bind (Csv.parse_process_char p c) (fun p' => feed p' s')
  end.

Fixpoint flat (p : Csv.parser) (mid : bool) (s : string)
  : result (list (list string)) :=
  match s with
  | EmptyString =>
      if mid then
        let p' := Csv.parse_process_eol p in
        if Csv.is_START_RECORD (Csv.st p') then Ok [Csv.fields p']
        else Csv.reader p' []
      else Csv.reader p []
  | String c s' =>
      bind (Csv.parse_process_char p c) (fun p1 =>
      if Ascii.eqb c LF then
        let p2 := Csv.parse_process_eol p1 in
        if Csv.is_START_RECORD (Csv.st p2)
        then bind (flat Csv.parse_reset false s')
               (fun rows => Ok (Csv.fields p2 :: rows))
        else flat p2 false s'
      else flat p1 true s')
  end.

(** How [flat] goes on once a field is complete and the delimiter [d] after
    it has been read: a line feed ends the record, a comma starts the next
    field. *)
Definition flat_after (d : ascii) (fs : list string) (rest : string)
  : result (list (list string)) :=
  if Ascii.eqb d LF
  then bind (flat Csv.parse_reset false rest) (fun rows => Ok (fs :: rows))
  else flat {| Csv.st := Csv.START_FIELD; Csv.field := EmptyString;
               Csv.fields := fs |} true rest.

(** A field the reader gives back as it was written: no carriage return,
    and no longer than the field size limit. *)
Definition clean_field (f : string) : Prop :=
  all_chars (fun c => negb (Ascii.eqb c CR)) f = true
  /\ Z.of_nat (String.length f) <= Csv.field_limit.

Definition clean_row (r : list string) : Prop := Forall clean_field r.

(** The text the writer produces for a sequence of rows. *)
Fixpoint write_rows (rows : list (list string)) : string :=
  match rows with
  | [] => EmptyString
  | r :: rows' => Csv.writerow r +:+ write_rows rows'
  end.

(** A row read by [DictReader] under the extractor's header, as a record. *)
Definition as_row (m : gmap string string) : Csv.row :=
  {| Csv.cols := Some <$> m; Csv.restkey := None |}.

(** A ledger whose first row stops short and whose second row runs over. *)
Definition ragged_ledger : string :=
  "Date,FileOpenTime" +:+ CompareBaselines.nl +:+
  "2024-01-01" +:+ CompareBaselines.nl +:+
  "2024-02-01,5,extra" +:+ CompareBaselines.nl.

(** The record [extract_metrics] builds on a host whose CPU and RAM query
    gives [cpu] and [ram], from the raw text of its input file. *)
Definition base_record (h : ExtractMetrics.host) (cpu ram build_config : string)
  : gmap string string :=
  <["BuildConfig" := build_config]>
  (<["OS" := ExtractMetrics.platform_system h +:+ " "
             +:+ ExtractMetrics.platform_release h]>
  (<["RAM" := ram]>
  (<["CPUModel" := cpu]>
  (<["CommitHash" := ExtractMetrics.get_git_commit_hash h]>
  (<["Date" := ExtractMetrics.today h]> ∅))))).

Definition run_record (h : ExtractMetrics.host)
  (cpu ram build_config raw : string) : gmap string string :=
  ExtractMetrics.extract_patterns (File.universal_newlines raw)
    (base_record h cpu ram build_config).

(** The values of a record in column order, as the writer takes them. *)
Definition record_values (m : gmap string string) : list string :=
  map (fun k => default EmptyString (m !! k)) ExtractMetrics.fieldnames.

(** A host, a test output, and a build label that holds a carriage
    return; [lf_label] is the same label with a line feed in its place. *)
Definition example_host : ExtractMetrics.host :=
  {| ExtractMetrics.today := "2024-03-01";
     ExtractMetrics.git_rev_parse := Some "9f8e7d";
     ExtractMetrics.system_info := Ok ("cpu", "32GB");
     ExtractMetrics.platform_system := "Linux";
     ExtractMetrics.platform_release := "6.1" |}.

Definition example_files : File.fs :=
  {[ "run.txt" := "File open time: 42ms" ]}.

Definition cr_label : string := "De" +:+ String CR "bug".
Definition lf_label : string := "De" +:+ String LF "bug".

(** A first run creates the store; a second run appends the record built
    with [cr_label]; the store is then read back. *)
Definition first_run : result (gmap string string) :=
  ExtractMetrics.extract_metrics example_host example_files
    "run.txt" "ledger.csv" "Release".

Definition appended_record : result (gmap string string) :=
  bind first_run (fun files =>
  ExtractMetrics.build_metrics example_host files "run.txt" cr_label).

Definition second_run : result (gmap string string) :=
  bind first_run (fun files =>
  ExtractMetrics.extract_metrics example_host files
    "run.txt" "ledger.csv" cr_label).

Definition read_back : result (list Csv.row) :=
  bind second_run (fun files =>
  CompareBaselines.load_baselines files "ledger.csv").

Definition field_of_last (recs : list Csv.row) (k : string) : option cell :=
  match last recs with
  | Some r => Csv.cols r !! k
  | None => None
  end.

(** A second run on the day of [row_feb], later in the file. *)
Definition row_feb_rerun : Csv.row :=
  Csv.dict_row ExtractMetrics.fieldnames
    [ "2024-02-01"; "7a8b9c"; "cpu"; "32GB"; "Linux 6.1"; "Debug";
      "155"; "11"; "51"; "5"; "7"; "N/A"; "0" ].

Definition insufficient_data : string :=
  "Need at least 2 baselines for comparison".

End Ledger.

(** ** [extract_performance_metrics.py]: [main] *)

Module ExtractMain.
Import Py.

Definition output_file : string := "large_file_baselines.csv".

(** [argv] is [sys.argv]. A run that raises has written nothing: the host
    queries and the reading of the input come before the store is opened. *)
Definition main (h : ExtractMetrics.host) (argv : list string)
  (files : File.fs) : CompareBaselines.run :=
  match argv with
  | [_; input_file; build_config] =>
      match ExtractMetrics.extract_metrics h files input_file output_file
              build_config with
      | Ok files' =>
          {| CompareBaselines.run_files := files';
             CompareBaselines.run_stdout :=
               ["Metrics extracted and written to " +:+ output_file];
             CompareBaselines.run_exit := CompareBaselines.Finished |}
      | Raise e =>
          {| CompareBaselines.run_files := files;
             CompareBaselines.run_stdout := [];
             CompareBaselines.run_exit := CompareBaselines.Uncaught e |}
      end
  | _ =>
      {| CompareBaselines.run_files := files;
         CompareBaselines.run_stdout :=
           ["Usage: python extract_performance_metrics.py <input_file> <build_config>"];
         CompareBaselines.run_exit := CompareBaselines.SysExit 1 |}
  end.

End ExtractMain.

(** ** Vocabulary of the statements about whole runs *)

Module Pipeline.
Import Py.

(** One call of [extract_metrics]: its host, input file and build label. *)
Record extraction := {
  on_host : ExtractMetrics.host;
  input_file : string;
  build_config : string;
}.

(** Calls of [extract_metrics] on one store, one after the other. *)
Fixpoint extract_all (files : File.fs) (out : string) (runs : list extraction)
  : result File.fs :=
  match runs with
  | [] => Ok files
  | r :: runs' =>
      bind (ExtractMetrics.extract_metrics (on_host r) files (input_file r)
              out (build_config r))
        (fun files' => extract_all files' out runs')
  end.

(** The record a call builds when its host answers and its input exists. *)
Definition record_of (files : File.fs) (r : extraction)
  : option (gmap string string) :=
  match ExtractMetrics.system_info (on_host r), files !! input_file r with
  | Ok (cpu, ram), Some raw =>
      Some (Ledger.run_record (on_host r) cpu ram (build_config r) raw)
  | _, _ => None
  end.

(** A non-empty run of decimal digits. *)
Definition digits (g : string) : Prop :=
  g <> EmptyString /\ all_chars is_digit g = true.

(** The thirteen keys of a comparison. *)
Definition comparison_keys : list string :=
  [ "Date"; "PreviousDate"; "CommitHash"; "PreviousCommitHash";
    "BuildConfig"; "PreviousBuildConfig" ]
  ++ map CompareBaselines.change_key CompareBaselines.metrics.

End Pipeline.

(** ** Text of any code points

    The strings of this development hold the code points below 256. A
    [str] read from a file may hold any code point, and in a [str] pattern
    the class [\d] is every code point the Unicode database gives a decimal
    digit value (category Nd). The matcher and the extractor's loop are
    given here on such text; on code points below 256, where the only
    decimal digits are the ten ASCII ones, they are [Re] and
    [ExtractMetrics.extract_patterns]. *)

Module Unicode.
Import Py.

(** A [str] as the list of its code points. *)
Abbreviation text := (list N).

Fixpoint of_string (s : string) : text :=
  match s with
  | EmptyString => []
  | String c s' => N_of_ascii c :: of_string s'
  end.

Definition NA : text := of_string "N/A".

Section Digits.
(** [_PyUnicode_ToDecimalDigit]: the digit value of a code point of
    category Nd, and -1 for any other code point. *)
Variable ToDecimalDigit : N -> Z.

(** [Py_UNICODE_ISDECIMAL], which is [\d]. *)
Definition is_decimal (c : N) : bool := 0 <=? ToDecimalDigit c.

Fixpoint match_literal (lit s : text) : option text :=
  match lit with
  | [] => Some s
  | c :: lit' =>
      match s with
      | c' :: s' => if N.eqb c c' then match_literal lit' s' else None
      | [] => None
      end
  end.

Fixpoint match_digits (lit s : text) : option text :=
  match s with
  | c :: s' =>
      if is_decimal c then
        match match_digits lit s' with
        | Some g => Some (c :: g)
        | None =>
            match match_literal lit s' with
            | Some _ => Some [c]
            | None => None
            end
        end
      else None
  | [] => None
  end.

Definition match_at (p : Re.pattern) (s : text) : option text :=
  match match_literal (of_string (Re.before p)) s with
  | Some rest => match_digits (of_string (Re.after p)) rest
  | None => None
  end.

Fixpoint search (p : Re.pattern) (s : text) : option text :=
  match match_at p s with
  | Some g => Some g
  | None =>
      match s with
      | [] => None
      | _ :: s' => search p s'
      end
  end.

(** The loop over [patterns.items()]. *)
Definition extract_patterns (content : text) (metrics : gmap string text)
  : gmap string text :=
  foldl (fun m np =>
           <[fst np := match search (snd np) content with
                       | Some g => g
                       | None => NA
                       end]> m)
        metrics ExtractMetrics.patterns.

(** A non-empty run of decimal digits, and the number it denotes. *)
Definition decimals (g : text) : Prop :=
  g <> [] /\ forallb is_decimal g = true.

Fixpoint decimal_value (acc : Z) (g : text) : Z :=
  match g with
  | [] => acc
  | c :: g' => decimal_value (10 * acc + ToDecimalDigit c) g'
  end.

(** After [pre], the text [s] holds the pattern's label, the digits [g] and
    the pattern's unit. *)
Definition occurs_at (p : Re.pattern) (s pre g : text) : Prop :=
  decimals g
  /\ exists post,
       s = pre ++ of_string (Re.before p) ++ g ++ of_string (Re.after p) ++ post.

(** The unit of a pattern does not start with a decimal digit. *)
Definition unit_after_digits (lit : text) : Prop :=
  match lit with
  | c0 :: _ => is_decimal c0 = false
  | [] => False
  end.

(** What the database says of the code points below 128, and below 256. *)
Definition ascii_digits : Prop :=
  forall c, (c < 128)%N ->
    ToDecimalDigit c
    = if ((48 <=? c) && (c <=? 57))%N then Z.of_N c - 48 else -1.

Definition latin1_digits : Prop :=
  forall c, (c < 256)%N ->
    ToDecimalDigit c
    = if ((48 <=? c) && (c <=? 57))%N then Z.of_N c - 48 else -1.
End Digits.

(** A database with the ASCII digits and the Arabic-Indic digits, U+0660 to
    U+0669. *)
Definition example_digits (c : N) : Z :=
  if ((48 <=? c) && (c <=? 57))%N then Z.of_N c - 48
  else if ((1632 <=? c) && (c <=? 1641))%N then Z.of_N c - 1632
  else -1.

End Unicode.

(** ** Properties *)

Module PyFacts.
Import Py.

Lemma bind_Ok {A B} (m : result A) (k : A -> result B) (b : B) :
  bind m k = Ok b -> exists a, m = Ok a /\ k a = Ok b.
Proof. destruct m as [a|e]; simpl; [eauto | discriminate]. Qed.

Lemma float_of_Z_0 : float_of_Z 0 = S754_zero false.
Proof. reflexivity. Qed.

Lemma float_eqb_zero x :
  float_eqb x (float_of_Z 0) = Ledger.is_zero x.
Proof. destruct x as [s|s| |s m e]; try destruct s; reflexivity. Qed.

Lemma float_div_nonzero x y :
  Ledger.is_zero y = false -> float_div x y = Ok (SFdiv prec emax x y).
Proof.
  intros Hy. unfold float_div.
  change (S754_zero false) with (float_of_Z 0).
  now rewrite float_eqb_zero, Hy.
Qed.

End PyFacts.

Module ChangeFacts.
Import Py PyFacts CompareBaselines.

(** The three ways [calculate_percentage_change] goes. *)
Lemma change_not_numeric_old old new e :
  float_of_cell old = Raise e -> calculate_percentage_change old new = Ok NA.
Proof.
  intros H. unfold calculate_percentage_change. rewrite H. simpl.
  destruct old as [s|]; simpl in H.
  - unfold float_of_string in H.
    repeat match type of H with
           | context [match ?x with _ => _ end] => destruct x
           end; inversion H; reflexivity.
  - inversion H. reflexivity.
Qed.

Lemma float_of_cell_exn v e :
  float_of_cell v = Raise e -> e = ValueError \/ e = TypeError.
Proof.
  destruct v as [s|]; simpl; intros H.
  - unfold float_of_string in H.
    repeat match type of H with
           | context [match ?x with _ => _ end] => destruct x
           end; inversion H; auto.
  - inversion H; auto.
Qed.

Lemma change_not_numeric_new old new e :
  float_of_cell new = Raise e -> calculate_percentage_change old new = Ok NA.
Proof.
  intros H. destruct (float_of_cell old) as [o|e'] eqn:Ho.
  - unfold calculate_percentage_change. rewrite Ho, H. simpl.
    destruct (float_of_cell_exn _ _ H) as [-> | ->]; reflexivity.
  - eapply change_not_numeric_old; eauto.
Qed.

Lemma change_zero old new z :
  float_of_cell old = Ok z -> Ledger.is_zero z = true ->
  calculate_percentage_change old new = Ok NA.
Proof.
  intros Ho Hz. unfold calculate_percentage_change. rewrite Ho. simpl.
  destruct (float_of_cell new) as [n|e] eqn:Hn; simpl.
  - now rewrite float_eqb_zero, Hz.
  - destruct (float_of_cell_exn _ _ Hn) as [-> | ->]; reflexivity.
Qed.

Lemma change_numeric old new o n :
  float_of_cell old = Ok o -> float_of_cell new = Ok n ->
  Ledger.is_zero o = false ->
  calculate_percentage_change old new = Ok (PFloat (Ledger.percentage o n)).
Proof.
  intros Ho Hn Hz. unfold calculate_percentage_change.
  rewrite Ho, Hn. simpl. rewrite float_eqb_zero, Hz.
  now rewrite float_div_nonzero.
Qed.

(** [calculate_percentage_change] always returns. *)
Lemma change_total old new :
  exists v, calculate_percentage_change old new = Ok v.
Proof.
  destruct (float_of_cell old) as [o|e] eqn:Ho.
  - destruct (float_of_cell new) as [n|e] eqn:Hn.
    + destruct (Ledger.is_zero o) eqn:Hz.
      * eexists. eapply change_zero; eauto.
      * eexists. eapply change_numeric; eauto.
    + eexists. eapply change_not_numeric_new; eauto.
  - eexists. eapply change_not_numeric_old; eauto.
Qed.

(** C2: when the previous value is a numeric zero the change is the N/A
    marker whatever the latest value is, so the division is not reached: a
    division by zero would leave the function as a [ZeroDivisionError],
    which its handler does not catch. Previous 0 with latest 50 gives N/A. *)
Theorem zero_previous_is_not_applicable (old new : cell) (z : float) :
  float_of_cell old = Ok z ->
  float_eqb z (float_of_Z 0) = true ->
  calculate_percentage_change old new = Ok NA
  /\ calculate_percentage_change old new <> Raise ZeroDivisionError
  /\ (forall o n : cell,
        calculate_percentage_change o n <> Raise ZeroDivisionError)
  /\ calculate_percentage_change (Some "0") (Some "50") = Ok (PStr "N/A").
Proof.
  intros Ho Hz. rewrite float_eqb_zero in Hz.
  assert (H : calculate_percentage_change old new = Ok NA)
    by (eapply change_zero; eauto).
  repeat split.
  - exact H.
  - rewrite H. discriminate.
  - intros o n. destruct (change_total o n) as [v ->]. discriminate.
Qed.

Lemma zero_previous_is_not_applicable_witness :
  calculate_percentage_change (Some "-0.0") (Some "50") = Ok NA.
Proof.
  apply (zero_previous_is_not_applicable (Some "-0.0") (Some "50")
           (S754_zero true)); reflexivity.
Defined.

End ChangeFacts.

Module SortFacts.
Import Py.

Section StableSortFacts.
Context {A : Type} (key : A -> string).

Lemma ltb_false_le (s1 s2 : string) :
  String.ltb s2 s1 = false <-> String.le s1 s2.
Proof.
  unfold String.le, String.leb, String.ltb.
  rewrite (String.compare_antisym s1 s2).
  destruct (String.compare s2 s1); simpl; split; intros H;
    first [done | discriminate H | destruct H].
Qed.

Lemma key_le_trans x y z : key_le key x y -> key_le key y z -> key_le key x z.
Proof.
  unfold key_le. rewrite !ltb_false_le. intros H1 H2.
  etrans; eauto.
Qed.

Lemma key_lt_le x y : key_lt key x y -> key_le key x y.
Proof.
  unfold key_lt, key_le, String.ltb.
  rewrite (String.compare_antisym (key x) (key y)).
  destruct (String.compare (key y) (key x)); simpl; congruence.
Qed.

Lemma key_le_total x y : key_le key x y \/ key_lt key y x.
Proof.
  unfold key_le, key_lt. destruct (String.ltb (key y) (key x)); auto.
Qed.

Lemma insert_left_Permutation x l : insert_left key x l ≡ₚ x :: l.
Proof.
  induction l as [|y l IH]; simpl; [done|].
  destruct (String.ltb (key y) (key x)); [|done].
  rewrite IH. apply Permutation_swap.
Qed.

Lemma stable_sort_Permutation l : stable_sort key l ≡ₚ l.
Proof.
  induction l as [|x l IH]; simpl; [done|].
  rewrite insert_left_Permutation. by constructor.
Qed.

Lemma stable_sort_length l : length (stable_sort key l) = length l.
Proof. apply Permutation_length, stable_sort_Permutation. Qed.

Lemma insert_left_sorted x l :
  StronglySorted (key_le key) l -> StronglySorted (key_le key) (insert_left key x l).
Proof.
  induction 1 as [|y l Hs IH Hy]; simpl.
  - repeat constructor.
  - destruct (String.ltb (key y) (key x)) eqn:Hlt.
    + constructor; [exact IH|].
      rewrite insert_left_Permutation. constructor; [|exact Hy].
      apply key_lt_le. exact Hlt.
    + constructor; [by constructor|].
      constructor; [exact Hlt|].
      eapply Forall_impl; [exact Hy|].
      intros z Hz. eapply key_le_trans; [exact Hlt|exact Hz].
Qed.

Lemma stable_sort_sorted l : StronglySorted (key_le key) (stable_sort key l).
Proof.
  induction l as [|x l IH]; simpl; [constructor|].
  by apply insert_left_sorted.
Qed.

(** A list already in order is left as it is. *)
Lemma stable_sort_id l : StronglySorted (key_le key) l -> stable_sort key l = l.
Proof.
  induction 1 as [|x l Hs IH Hx]; simpl; [done|].
  rewrite IH. destruct Hx as [|y l' Hy _]; simpl; [done|].
  unfold key_le in Hy. by rewrite Hy.
Qed.

(** Stability: the elements of one key keep their order. *)
Lemma insert_left_filter (k : string) x l :
  filter (fun y => key y = k) (insert_left key x l)
  = filter (fun y => key y = k) (x :: l).
Proof.
  induction l as [|y l IH]; simpl; [done|].
  destruct (String.ltb (key y) (key x)) eqn:Hlt; [|done].
  rewrite filter_cons, IH, !filter_cons.
  destruct (decide (key y = k)) as [Hy|Hy];
    destruct (decide (key x = k)) as [Hx|Hx]; try done.
  exfalso. rewrite Hy, Hx in Hlt.
  assert (String.le k k) as Hle by done.
  apply ltb_false_le in Hle. congruence.
Qed.

Lemma stable_sort_filter (k : string) l :
  filter (fun y => key y = k) (stable_sort key l)
  = filter (fun y => key y = k) l.
Proof.
  induction l as [|x l IH]; simpl; [done|].
  rewrite insert_left_filter, !filter_cons, IH. done.
Qed.

(** The last element after sorting. *)
Lemma insert_left_snoc_small x l :
  Forall (fun y => key_lt key y x) l -> insert_left key x l = l ++ [x].
Proof.
  induction 1 as [|y l Hy _ IH]; simpl; [done|].
  unfold key_lt in Hy. by rewrite Hy, IH.
Qed.

Lemma insert_left_keeps_last x l r :
  key_le key x r -> exists l', insert_left key x (l ++ [r]) = l' ++ [r].
Proof.
  intros Hx. induction l as [|y l [l' IH]]; simpl.
  - unfold key_le in Hx. rewrite Hx. by exists [x].
  - destruct (String.ltb (key y) (key x)).
    + rewrite IH. by exists (y :: l').
    + by exists (x :: y :: l).
Qed.

Lemma stable_sort_last l1 r l2 :
  Forall (fun x => key_le key x r) l1 ->
  Forall (fun x => key_lt key x r) l2 ->
  exists l', stable_sort key (l1 ++ r :: l2) = l' ++ [r].
Proof.
  intros H1 H2. induction H1 as [|x l1 Hx _ [l' IH]]; simpl.
  - exists (stable_sort key l2). apply insert_left_snoc_small.
    rewrite stable_sort_Permutation. exact H2.
  - rewrite IH. by apply insert_left_keeps_last.
Qed.

End StableSortFacts.

(** Sorting commutes with a map that is followed by the key. *)
Lemma insert_left_map {A B} (h : A -> B) (key : B -> string) x l :
  insert_left key (h x) (map h l) = map h (insert_left (key ∘ h) x l).
Proof.
  induction l as [|y l IH]; simpl; [done|].
  destruct (String.ltb (key (h y)) (key (h x))); simpl; by rewrite ?IH.
Qed.

Lemma stable_sort_map {A B} (h : A -> B) (key : B -> string) l :
  stable_sort key (map h l) = map h (stable_sort (key ∘ h) l).
Proof.
  induction l as [|x l IH]; simpl; [done|].
  by rewrite IH, insert_left_map.
Qed.

Lemma zip_map_self {A B} (f : A -> B) (l : list A) :
  zip (map f l) l = map (fun x => (f x, x)) l.
Proof. induction l; simpl; by f_equal. Qed.

(** [list.sort(key=lambda x: x['Date'])] on rows that have a date. *)
Lemma mapM_getitem_Date (l : list Csv.row) :
  forallb Ledger.has_columns l = true ->
  mapM (fun x => CompareBaselines.getitem x "Date") l
  = Ok (map (fun r => Ledger.column r "Date") l).
Proof.
  induction l as [|r l IH]; simpl; [done|].
  intros [Hr Hl]%andb_prop. rewrite (IH Hl). clear IH.
  unfold Ledger.has_columns in Hr. apply andb_prop in Hr as [Hd _].
  unfold CompareBaselines.getitem, Ledger.column.
  destruct (Csv.cols r !! "Date") as [c|]; simpl in *; [done|discriminate].
Qed.

Lemma dates_not_None (l : list Csv.row) :
  forallb Ledger.has_columns l = true ->
  existsb is_None (map (fun r => Ledger.column r "Date") l) = false.
Proof.
  induction l as [|r l IH]; simpl; [done|].
  intros [Hr Hl]%andb_prop. rewrite (IH Hl).
  unfold Ledger.has_columns in Hr. apply andb_prop in Hr as [Hd _].
  unfold Ledger.column.
  destruct (mjoin (Csv.cols r !! "Date")); simpl in *; [done|discriminate].
Qed.

Lemma list_sort_by_date (l : list Csv.row) :
  forallb Ledger.has_columns l = true ->
  list_sort (fun x => CompareBaselines.getitem x "Date") l
  = Ok (Ledger.sort_by_date l).
Proof.
  intros Hl. unfold list_sort. rewrite (mapM_getitem_Date l Hl). simpl.
  rewrite (dates_not_None l Hl), andb_false_r.
  rewrite zip_map_self, stable_sort_map, map_map. simpl.
  by rewrite map_id.
Qed.

End SortFacts.

Module CompareFacts.
Import Py PyFacts CompareBaselines Ledger ChangeFacts SortFacts.

Lemma change_of_spec old new :
  calculate_percentage_change old new = Ok (change_of old new).
Proof. unfold change_of. by destruct (change_total old new) as [v ->]. Qed.

Lemma change_of_cases old new :
  change_of old new = NA \/ exists x, change_of old new = PFloat x.
Proof.
  unfold change_of.
  destruct (float_of_cell old) as [o|e] eqn:Ho.
  - destruct (float_of_cell new) as [n|e] eqn:Hn.
    + destruct (is_zero o) eqn:Hz.
      * rewrite (change_zero old new o Ho Hz). by left.
      * rewrite (change_numeric old new o n Ho Hn Hz). right. by eexists.
    + rewrite (change_not_numeric_new old new e Hn). by left.
  - rewrite (change_not_numeric_old old new e Ho). by left.
Qed.

Ltac in_list := refine (bool_decide_unpack _ _); vm_compute; exact I.

Lemma getitem_column r k :
  has_columns r = true -> k ∈ compared_columns ->
  getitem r k = Ok (column r k).
Proof.
  unfold has_columns. intros [_ H]%andb_prop Hk.
  rewrite forallb_forall in H. apply list_elem_of_In in Hk.
  specialize (H k Hk). unfold getitem, column.
  destruct (Csv.cols r !! k); [done|discriminate].
Qed.

Lemma metrics_compared m : m ∈ metrics -> m ∈ compared_columns.
Proof. unfold compared_columns. intros H. apply elem_of_app. by right. Qed.

Lemma compare_metrics_ok previous latest ms c :
  (forall m, m ∈ ms ->
     getitem previous m = Ok (column previous m)
     /\ getitem latest m = Ok (column latest m)) ->
  compare_metrics previous latest ms c
  = Ok (foldl (fun c m =>
                 <[change_key m :=
                     change_of (column previous m) (column latest m)]> c)
              c ms).
Proof.
  revert c. induction ms as [|m ms IH]; intros c H; simpl; [done|].
  destruct (H m) as [-> ->]; [by left|]. simpl.
  rewrite change_of_spec. simpl. apply IH. intros m' Hm'. apply H. by right.
Qed.

Lemma build_comparison_ok front previous latest :
  has_columns previous = true -> has_columns latest = true ->
  build_comparison (front ++ [previous; latest])
  = Ok (comparison_of previous latest).
Proof.
  intros Hp Hl. unfold build_comparison, last1, last2.
  rewrite rev_app_distr. simpl.
  rewrite !(getitem_column latest) by (done || in_list).
  rewrite !(getitem_column previous) by (done || in_list).
  do 7 (cbn [bind]; rewrite change_of_spec). reflexivity.
Qed.

Lemma two_last {A} (l : list A) :
  (2 <= length l)%nat -> exists front x y, l = front ++ [x; y].
Proof.
  intros Hlen. rewrite <- (rev_involutive l) in *.
  rewrite length_rev in Hlen.
  destruct (rev l) as [|y [|x rest]]; simpl in Hlen; try lia.
  exists (rev rest), x, y. simpl. by rewrite <- app_assoc.
Qed.

Lemma has_columns_sorted l r :
  forallb has_columns l = true -> r ∈ sort_by_date l -> has_columns r = true.
Proof.
  intros H Hr. rewrite forallb_forall in H. apply H, list_elem_of_In.
  unfold sort_by_date in Hr. by rewrite stable_sort_Permutation in Hr.
Qed.

(** On two or more rows that have their columns, [compare_baselines]
    returns the dict of the last two rows in date order, prints nothing and
    leaves the list sorted. *)
Lemma compare_baselines_returns l :
  forallb has_columns l = true -> (2 <= length l)%nat ->
  exists front previous latest,
    sort_by_date l = front ++ [previous; latest]
    /\ compare_baselines l
       = Returns [] (sort_by_date l) (Some (comparison_of previous latest)).
Proof.
  intros Hc Hlen.
  destruct (two_last (sort_by_date l)) as (front & p & r & Hs).
  { unfold sort_by_date. by rewrite stable_sort_length. }
  exists front, p, r. split; [done|]. unfold compare_baselines.
  destruct (Nat.ltb_spec (length l) 2) as [?|_]; [lia|].
  rewrite list_sort_by_date by done.
  assert (build_comparison (sort_by_date l) = Ok (comparison_of p r)) as ->;
    [|done].
  rewrite Hs. apply build_comparison_ok.
  - apply (has_columns_sorted l); [done|]. rewrite Hs. set_solver.
  - apply (has_columns_sorted l); [done|]. rewrite Hs. set_solver.
Qed.

Lemma compare_baselines_few l :
  (length l < 2)%nat ->
  compare_baselines l = Returns [insufficient_data] l None.
Proof.
  intros Hlen. unfold compare_baselines.
  by destruct (Nat.ltb_spec (length l) 2) as [_|?]; [|lia].
Qed.

Lemma comparison_of_change previous latest m :
  m ∈ metrics ->
  comparison_of previous latest !! change_key m
  = Some (change_of (column previous m) (column latest m)).
Proof.
  unfold metrics. intros H.
  repeat (apply elem_of_cons in H as [->|H]; [reflexivity|]).
  inversion H.
Qed.

Lemma comparison_of_nonempty previous latest :
  comparison_of previous latest <> ∅.
Proof.
  intros H. apply (f_equal (fun c => c !! "Date")) in H.
  rewrite lookup_empty in H. discriminate H.
Qed.

(** The report of such a dict is always rendered. *)
Lemma render_change_of old new :
  exists text, render_change (change_of old new) = Ok text.
Proof.
  destruct (change_of_cases old new) as [-> | [x ->]]; simpl; eauto.
Qed.

Lemma render_rows_ok c ms report :
  (forall m, m ∈ ms ->
     exists v text, c !! change_key m = Some v /\ render_change v = Ok text) ->
  exists text, render_rows c ms report = Ok text.
Proof.
  revert report. induction ms as [|m ms IH]; intros report H; simpl; [eauto|].
  destruct (H m) as (v & text & Hv & Ht); [by left|].
  unfold lookup_key. rewrite Hv. simpl. rewrite Ht. simpl.
  apply IH. intros m' Hm'. apply H. by right.
Qed.

Lemma generate_markdown_report_ok float_repr previous latest :
  exists report,
    generate_markdown_report float_repr (comparison_of previous latest)
    = Ok report.
Proof.
  unfold generate_markdown_report, lookup_key.
  change (comparison_of previous latest !! "Date")
    with (Some (of_cell (column latest "Date"))).
  change (comparison_of previous latest !! "PreviousDate")
    with (Some (of_cell (column previous "Date"))).
  change (comparison_of previous latest !! "CommitHash")
    with (Some (of_cell (column latest "CommitHash"))).
  change (comparison_of previous latest !! "PreviousCommitHash")
    with (Some (of_cell (column previous "CommitHash"))).
  change (comparison_of previous latest !! "BuildConfig")
    with (Some (of_cell (column latest "BuildConfig"))).
  change (comparison_of previous latest !! "PreviousBuildConfig")
    with (Some (of_cell (column previous "BuildConfig"))).
  cbn [bind]. apply render_rows_ok. intros m Hm.
  rewrite comparison_of_change by done.
  destruct (render_change_of (column previous m) (column latest m))
    as [text Ht].
  eauto.
Qed.

End CompareFacts.

Module CompareClaims.
Import Py PyFacts CompareBaselines Ledger ChangeFacts SortFacts CompareFacts.

Lemma compare_baselines_sorted l front previous latest :
  forallb has_columns l = true ->
  sort_by_date l = front ++ [previous; latest] ->
  compare_baselines l
  = Returns [] (sort_by_date l) (Some (comparison_of previous latest)).
Proof.
  intros Hc Hs.
  destruct (compare_baselines_returns l Hc) as (f & p & r & Hs' & ->).
  - rewrite <- (stable_sort_length date_of). fold (sort_by_date l).
    rewrite Hs, length_app. simpl. lia.
  - rewrite Hs in Hs'.
    assert (front ++ [previous] = f ++ [p] /\ latest = r) as [H1 ->].
    { apply app_inj_tail. by rewrite <- !app_assoc. }
    apply app_inj_tail in H1 as [_ ->]. done.
Qed.

Lemma date_of_column r d : column r "Date" = Some d -> date_of r = d.
Proof. unfold date_of, column. by intros ->. Qed.

(** C1: for the two rows [compare] selects, a metric whose cells both parse
    as numbers, the previous one not zero, gets the change
    [(latest - previous) / previous * 100] in float arithmetic. With rows
    dated 2024-01-01 and 2024-02-01 whose FileOpenTime is 100 and 150, in
    either file order, the FileOpenTime change is 50 and the report shows it
    as +50.00%. *)
Theorem compare_percentage_change
  (baselines front : list Csv.row) (previous latest : Csv.row)
  (m : string) (o n : float) :
  forallb has_columns baselines = true ->
  sort_by_date baselines = front ++ [previous; latest] ->
  m ∈ metrics ->
  float_of_cell (column previous m) = Ok o ->
  float_of_cell (column latest m) = Ok n ->
  float_eqb o (float_of_Z 0) = false ->
  (exists comparison,
     compare_baselines baselines
     = Returns [] (sort_by_date baselines) (Some comparison)
     /\ comparison !! change_key m
        = Some (PFloat (float_mul
                          (SFdiv prec emax (float_sub n o) o)
                          (float_of_Z 100))))
  /\ (forall r1 r2 l,
        has_columns r1 = true -> has_columns r2 = true ->
        column r1 "Date" = Some "2024-01-01" ->
        column r2 "Date" = Some "2024-02-01" ->
        column r1 "FileOpenTime" = Some "100" ->
        column r2 "FileOpenTime" = Some "150" ->
        l = [r1; r2] \/ l = [r2; r1] ->
        exists comparison,
          compare_baselines l = Returns [] [r1; r2] (Some comparison)
          /\ comparison !! "FileOpenTime_Change" = Some (PFloat (float_of_Z 50))
          /\ render_change (PFloat (float_of_Z 50)) = Ok "+50.00%").
Proof.
  intros Hc Hs Hm Ho Hn Hz. rewrite float_eqb_zero in Hz. split.
  - exists (comparison_of previous latest). split.
    + by apply (compare_baselines_sorted _ front).
    + rewrite comparison_of_change by done.
      unfold change_of. by rewrite (change_numeric _ _ o n Ho Hn Hz).
  - clear. intros r1 r2 l H1 H2 D1 D2 F1 F2 Hl.
    assert (Hcols : forallb has_columns l = true).
    { destruct Hl as [-> | ->]; simpl; by rewrite H1, H2. }
    assert (Hsort : sort_by_date l = [] ++ [r1; r2]).
    { apply date_of_column in D1, D2.
      destruct Hl as [-> | ->]; unfold sort_by_date; simpl;
        rewrite D1, D2; reflexivity. }
    exists (comparison_of r1 r2). split; [|split].
    + rewrite (compare_baselines_sorted l [] r1 r2 Hcols Hsort).
      by rewrite Hsort.
    + change "FileOpenTime_Change" with (change_key "FileOpenTime").
      rewrite comparison_of_change by in_list.
      unfold change_of. rewrite F1, F2. reflexivity.
    + reflexivity.
Qed.

Lemma compare_percentage_change_witness :
  exists comparison,
    compare_baselines [row_feb; row_jan]
    = Returns [] (sort_by_date [row_feb; row_jan]) (Some comparison)
    /\ comparison !! change_key "FileSaveTime"
       = Some (PFloat (float_mul
                         (SFdiv prec emax
                            (float_sub (float_of_Z 10) (float_of_Z 20))
                            (float_of_Z 20))
                         (float_of_Z 100))).
Proof.
  apply (compare_percentage_change [row_feb; row_jan] [] row_jan row_feb
           "FileSaveTime" (float_of_Z 20) (float_of_Z 10));
    solve [ vm_compute; reflexivity | in_list ].
Defined.

(** C3, amended: [compare] is not pure. It sorts the caller's list in place
    by date: on rows that carry the compared columns the call returns and
    leaves the list holding the same rows in stable date order, which is
    the list as it was exactly when it was already in date order, as every
    list of fewer than two rows is; with fewer than two rows the call also
    prints the insufficient-data message. *)
Theorem compare_sorts_in_place (baselines : list Csv.row) :
  forallb has_columns baselines = true ->
  exists out v,
    compare_baselines baselines = Returns out (sort_by_date baselines) v
    /\ sort_by_date baselines ≡ₚ baselines
    /\ StronglySorted date_le (sort_by_date baselines)
    /\ (sort_by_date baselines = baselines <-> StronglySorted date_le baselines)
    /\ ((length baselines < 2)%nat ->
        sort_by_date baselines = baselines /\ out = [insufficient_data])
    /\ ((2 <= length baselines)%nat -> out = []).
Proof.
  intros Hc.
  assert (Hperm : sort_by_date baselines ≡ₚ baselines)
    by apply stable_sort_Permutation.
  assert (Hsorted : StronglySorted date_le (sort_by_date baselines))
    by apply (stable_sort_sorted date_of).
  assert (Hid : sort_by_date baselines = baselines
                <-> StronglySorted date_le baselines).
  { split; [by intros <-|apply (stable_sort_id date_of)]. }
  assert (Hfew : (length baselines < 2)%nat -> sort_by_date baselines = baselines).
  { intros Hlen. apply Hid.
    destruct baselines as [|x [|y l]]; simpl in Hlen; try lia;
      repeat constructor. }
  destruct (Nat.lt_ge_cases (length baselines) 2) as [Hlen|Hlen].
  - exists [insufficient_data], None. rewrite (Hfew Hlen) at 1.
    split; [by apply compare_baselines_few|].
    repeat split; auto; try apply Hid; lia.
  - destruct (compare_baselines_returns baselines Hc Hlen)
      as (front & p & r & _ & Hr).
    exists [], (Some (comparison_of p r)).
    split; [exact Hr|]. repeat split; auto; try apply Hid; lia.
Qed.

Lemma compare_sorts_in_place_witness :
  exists out v,
    compare_baselines [row_feb; row_jan]
    = Returns out (sort_by_date [row_feb; row_jan]) v
    /\ sort_by_date [row_feb; row_jan] ≡ₚ [row_feb; row_jan].
Proof.
  destruct (compare_sorts_in_place [row_feb; row_jan])
    as (out & v & H1 & H2 & _); [vm_compute; reflexivity|].
  exists out, v. split; assumption.
Defined.

(** C3 as stated fails: a list holding the February row before the January
    row comes back from the call with the two rows swapped; and a call on a
    single row prints a line. *)
Lemma compare_reorders_its_argument :
  (exists comparison,
     compare_baselines [row_feb; row_jan]
     = Returns [] [row_jan; row_feb] (Some comparison))
  /\ [row_jan; row_feb] <> [row_feb; row_jan]
  /\ compare_baselines [row_jan] = Returns [insufficient_data] [row_jan] None.
Proof.
  split; [|split].
  - exists (comparison_of row_jan row_feb).
    rewrite (compare_baselines_sorted [row_feb; row_jan] [] row_jan row_feb);
      [| vm_compute; reflexivity ..].
    f_equal.
  - intros H. apply (f_equal (fun l => date_of <$> l)) in H.
    vm_compute in H. discriminate H.
  - apply compare_baselines_few. simpl. lia.
Qed.

(** C6: on fewer than two rows [compare] prints the insufficient-data
    message, raises nothing and returns no comparison, and [main] then
    writes no report and ends normally. On exactly two rows it never takes
    that way out, and when the rows carry the compared columns it returns a
    comparison from which [main] writes the report. *)
Theorem compare_insufficient_data_boundary (baselines : list Csv.row) :
  ((length baselines < 2)%nat ->
     compare_baselines baselines
     = Returns [insufficient_data] baselines None
     /\ forall float_repr prog path files,
          load_baselines files path = Ok baselines ->
          main float_repr [prog; path] files
          = {| run_files := files; run_stdout := [insufficient_data];
               run_exit := Finished |})
  /\ (length baselines = 2%nat ->
      (forall out l v,
         compare_baselines baselines = Returns out l v ->
         out = [] /\ is_Some v)
      /\ (forallb has_columns baselines = true ->
          exists comparison,
            compare_baselines baselines
            = Returns [] (sort_by_date baselines) (Some comparison)
            /\ forall float_repr prog path files,
                 load_baselines files path = Ok baselines ->
                 exists report,
                   generate_markdown_report float_repr comparison = Ok report
                   /\ main float_repr [prog; path] files
                      = {| run_files := <[output_file := report]> files;
                           run_stdout :=
                             ["Comparison report written to " +:+ output_file];
                           run_exit := Finished |})).
Proof.
  split.
  - intros Hlen. pose proof (compare_baselines_few baselines Hlen) as Hfew.
    split; [exact Hfew|].
    intros float_repr prog path files Hload. unfold main.
    by rewrite Hload, Hfew.
  - intros Hlen. split.
    + intros out l v. unfold compare_baselines. rewrite Hlen. simpl.
      destruct (list_sort _ baselines) as [sorted|e]; [|discriminate].
      destruct (build_comparison sorted) as [c|e]; [|discriminate].
      intros [= <- _ <-]. split; [done|by eexists].
    + intros Hc.
      destruct (compare_baselines_returns baselines Hc)
        as (front & p & r & _ & Hr); [lia|].
      exists (comparison_of p r). split; [exact Hr|].
      intros float_repr prog path files Hload.
      destruct (generate_markdown_report_ok float_repr p r) as [report Hrep].
      exists report. split; [exact Hrep|].
      unfold main. rewrite Hload, Hr.
      rewrite bool_decide_eq_false_2 by apply comparison_of_nonempty.
      by rewrite Hrep.
Qed.

Lemma compare_insufficient_data_boundary_witness :
  compare_baselines [row_jan] = Returns [insufficient_data] [row_jan] None
  /\ exists comparison,
       compare_baselines [row_feb; row_jan]
       = Returns [] (sort_by_date [row_feb; row_jan]) (Some comparison).
Proof.
  split.
  - apply (proj1 (compare_insufficient_data_boundary [row_jan])).
    simpl. lia.
  - destruct (proj2 (compare_insufficient_data_boundary [row_feb; row_jan])
                eq_refl) as [_ H].
    destruct H as (comparison & Hc & _); [vm_compute; reflexivity|].
    exists comparison. exact Hc.
Defined.

(** C10: the date sort is stable. The list [compare] leaves holds the rows
    in non-decreasing date order with the rows of each date in the order
    they had in the file, and the row taken as latest is, among the rows of
    the greatest date, the one that came last in the file. *)
Theorem date_sort_is_stable (baselines : list Csv.row) :
  forallb has_columns baselines = true ->
  (2 <= length baselines)%nat ->
  exists front previous latest,
    compare_baselines baselines
    = Returns [] (front ++ [previous; latest])
        (Some (comparison_of previous latest))
    /\ front ++ [previous; latest] ≡ₚ baselines
    /\ StronglySorted date_le (front ++ [previous; latest])
    /\ (forall d,
          filter (fun r => date_of r = d) (front ++ [previous; latest])
          = filter (fun r => date_of r = d) baselines)
    /\ (forall l1 r l2,
          baselines = l1 ++ r :: l2 ->
          Forall (fun x => date_le x r) l1 ->
          Forall (fun x => String.ltb (date_of x) (date_of r) = true) l2 ->
          latest = r).
Proof.
  intros Hc Hlen.
  destruct (compare_baselines_returns baselines Hc Hlen)
    as (front & p & r & Hs & Hr).
  exists front, p, r. rewrite <- Hs. repeat split.
  - exact Hr.
  - apply stable_sort_Permutation.
  - apply (stable_sort_sorted date_of).
  - intros d. apply (stable_sort_filter date_of).
  - intros l1 r' l2 -> H1 H2.
    destruct (stable_sort_last date_of l1 r' l2 H1 H2) as [l' Hl'].
    unfold sort_by_date in Hs. rewrite Hl' in Hs.
    change (front ++ [p; r]) with (front ++ [p] ++ [r]) in Hs.
    rewrite app_assoc in Hs. by apply app_inj_tail in Hs as [_ ->].
Qed.

Lemma date_sort_is_stable_witness :
  exists front previous,
    compare_baselines [row_feb; row_jan; row_feb_rerun]
    = Returns [] (front ++ [previous; row_feb_rerun])
        (Some (comparison_of previous row_feb_rerun)).
Proof.
  destruct (date_sort_is_stable [row_feb; row_jan; row_feb_rerun])
    as (front & p & r & H1 & _ & _ & _ & H2);
    [vm_compute; reflexivity | simpl; lia |].
  rewrite (H2 [row_feb; row_jan] row_feb_rerun []) in H1.
  - exists front, p. exact H1.
  - reflexivity.
  - repeat constructor.
  - constructor.
Defined.

End CompareClaims.

Module ExtractFacts.
Import Py PyFacts Ledger ExtractMetrics.

Lemma match_digits_digits lit s g :
  Re.match_digits lit s = Some g ->
  g <> EmptyString /\ all_chars is_digit g = true.
Proof.
  revert g. induction s as [|c s IH]; simpl; intros g; [discriminate|].
  destruct (is_digit c) eqn:Hc; [|discriminate].
  destruct (Re.match_digits lit s) as [g'|].
  - intros [= <-]. destruct (IH g' eq_refl) as [_ Hg].
    split; [discriminate|]. simpl. by rewrite Hc, Hg.
  - destruct (Re.match_literal lit s); [|discriminate].
    intros [= <-]. split; [discriminate|]. simpl. by rewrite Hc.
Qed.

Lemma search_digits p s g :
  Re.search p s = Some g -> g <> EmptyString /\ all_chars is_digit g = true.
Proof.
  assert (Hat : forall s, Re.match_at p s = Some g ->
                g <> EmptyString /\ all_chars is_digit g = true).
  { intros s'. unfold Re.match_at.
    destruct (Re.match_literal (Re.before p) s'); [|discriminate].
    apply match_digits_digits. }
  induction s as [|c s IH]; simpl.
  - destruct (Re.match_at p EmptyString) eqn:H; [|discriminate].
    intros [= <-]. by apply Hat in H.
  - destruct (Re.match_at p (String c s)) eqn:H.
    + intros [= <-]. by apply Hat in H.
    + exact IH.
Qed.

Lemma found_metric_value p content : metric_value (found p content).
Proof.
  unfold found, metric_value.
  destruct (Re.search p content) as [g|] eqn:H; [|by left].
  right. by apply search_digits in H.
Qed.

Lemma extract_patterns_unfold content m0 :
  extract_patterns content m0
  = foldl (fun m np => <[fst np := found (snd np) content]> m) m0 patterns.
Proof. reflexivity. Qed.

Lemma extract_patterns_lookup content m0 name p :
  (name, p) ∈ patterns ->
  extract_patterns content m0 !! name = Some (found p content).
Proof.
  rewrite extract_patterns_unfold. unfold patterns. simpl. intros H.
  repeat (apply elem_of_cons in H as [[= -> ->]|H];
          [by simplify_map_eq|]).
  inversion H.
Qed.

Lemma extract_patterns_other content m0 k :
  k ∉ map fst patterns ->
  extract_patterns content m0 !! k = m0 !! k.
Proof.
  rewrite extract_patterns_unfold. unfold patterns. simpl. intros H.
  rewrite !lookup_insert_ne; [done|..]; intros <-; apply H; set_solver.
Qed.

Lemma metric_names_patterns name :
  name ∈ metric_names -> exists p, (name, p) ∈ patterns.
Proof.
  intros Hn. unfold metric_names in Hn.
  apply list_elem_of_fmap in Hn as ([n p] & -> & Hp). by exists p.
Qed.

Lemma extract_patterns_dom content (metrics0 : gmap string string) :
  dom (extract_patterns content metrics0)
  = dom metrics0 ∪ list_to_set metric_names.
Proof.
  apply set_eq. intros k. rewrite elem_of_union, !elem_of_dom.
  rewrite elem_of_list_to_set.
  destruct (decide (k ∈ metric_names)) as [Hk|Hk].
  - destruct (metric_names_patterns k Hk) as [p Hp].
    rewrite (extract_patterns_lookup content metrics0 k p Hp).
    split; [by right|by eexists].
  - rewrite extract_patterns_other by done. tauto.
Qed.

Lemma search_after_prefix p pre s :
  match Re.before p with
  | String c0 _ => all_chars (fun c => negb (Ascii.eqb c0 c)) pre = true
  | EmptyString => False
  end ->
  Re.search p (pre +:+ s) = Re.search p s.
Proof.
  destruct (Re.before p) as [|c0 lit] eqn:Hp; [done|].
  induction pre as [|c pre IH]; simpl; [done|].
  intros [Hc Hpre]%andb_prop.
  change (String c pre +:+ s) with (String c (pre +:+ s)).
  cbn [Re.search]. unfold Re.match_at at 1. rewrite Hp. simpl.
  apply negb_true_iff in Hc. rewrite Hc. by apply IH.
Qed.

End ExtractFacts.

Module UnicodeFacts.
Import Py PyFacts ExtractMetrics Ledger Unicode.

Lemma of_string_app s t : of_string (s +:+ t) = of_string s ++ of_string t.
Proof. induction s as [|c s IH]; [done|]. simpl. by rewrite IH. Qed.

Lemma text_match_literal_spec lit s rest :
  match_literal lit s = Some rest <-> s = lit ++ rest.
Proof.
  revert s. induction lit as [|c lit IH]; intros s; simpl.
  - split; [by intros [= ->]|by intros ->].
  - destruct s as [|c' s]; [split; discriminate|].
    destruct (N.eqb_spec c c') as [->|Hne].
    + rewrite IH. split; [by intros ->|by intros [= ->]].
    + split; [discriminate|]. intros [= ? ?]. by destruct Hne.
Qed.

Section Database.
Variable D : N -> Z.

Lemma text_match_digits_sound lit s g :
  match_digits D lit s = Some g ->
  decimals D g /\ exists post, s = g ++ lit ++ post.
Proof.
  revert g. induction s as [|c s IH]; intros g; simpl; [discriminate|].
  destruct (is_decimal D c) eqn:Hc; [|discriminate].
  destruct (match_digits D lit s) as [g0|].
  - intros [= <-]. destruct (IH g0 eq_refl) as ([_ Hg0] & post & ->).
    split.
    + split; [done|]. simpl. by rewrite Hc, Hg0.
    + by exists post.
  - destruct (match_literal lit s) as [rest|] eqn:Hl; [|discriminate].
    intros [= <-]. apply text_match_literal_spec in Hl as ->. split.
    + split; [done|]. simpl. by rewrite Hc.
    + by exists rest.
Qed.

Lemma text_match_digits_first lit post g :
  unit_after_digits D lit -> decimals D g ->
  match_digits D lit (g ++ lit ++ post) = Some g.
Proof.
  intros Hlit [Hne Hg]. induction g as [|c g IH]; [done|].
  simpl in Hg. apply andb_prop in Hg as [Hc Hg].
  cbn [app match_digits]. rewrite Hc. destruct g as [|c' g].
  - cbn [app].
    assert (match_digits D lit (lit ++ post) = None) as ->.
    { destruct lit as [|c0 lit']; [done|]. simpl in *. by rewrite Hlit. }
    by rewrite (proj2 (text_match_literal_spec lit (lit ++ post) post) eq_refl).
  - by rewrite IH.
Qed.

Lemma match_at_occurs p s g :
  match_at D p s = Some g -> occurs_at D p s [] g.
Proof.
  unfold match_at.
  destruct (match_literal (of_string (Re.before p)) s) as [rest|] eqn:Hl;
    [|discriminate].
  apply text_match_literal_spec in Hl as ->.
  intros (Hg & post & ->)%text_match_digits_sound. split; [done|]. by exists post.
Qed.

Lemma occurs_match_at p s g :
  unit_after_digits D (of_string (Re.after p)) ->
  occurs_at D p s [] g -> match_at D p s = Some g.
Proof.
  intros Hlit (Hg & post & ->). unfold match_at. cbn [app].
  rewrite (proj2 (text_match_literal_spec _ _ _) eq_refl).
  by apply text_match_digits_first.
Qed.

Lemma occurs_at_cons p c s pre g :
  occurs_at D p (c :: s) (c :: pre) g <-> occurs_at D p s pre g.
Proof.
  unfold occurs_at. split; intros (Hg & post & H); (split; [done|]);
    exists post.
  - by injection H.
  - by rewrite H.
Qed.

Lemma occurs_at_head p c s c' pre g :
  occurs_at D p (c :: s) (c' :: pre) g -> c' = c.
Proof. intros (_ & post & H). by injection H. Qed.

Lemma text_search_Some p s g :
  unit_after_digits D (of_string (Re.after p)) ->
  search D p s = Some g ->
  exists pre,
    occurs_at D p s pre g
    /\ forall pre' g', occurs_at D p s pre' g' ->
         (length pre <= length pre')%nat.
Proof.
  intros Hlit. induction s as [|c s IH]; cbn [search].
  - destruct (match_at D p []) as [g0|] eqn:Hm; [|discriminate].
    intros [= ->]. exists []. split; [by apply match_at_occurs|].
    intros; simpl; lia.
  - destruct (match_at D p (c :: s)) as [g0|] eqn:Hm.
    + intros [= ->]. exists []. split; [by apply match_at_occurs|].
      intros; simpl; lia.
    + intros Hs. destruct (IH Hs) as (pre & Hocc & Hleft).
      exists (c :: pre). split; [by apply occurs_at_cons|].
      intros [|c' pre'] g' Hocc'.
      * apply (occurs_match_at p _ g' Hlit) in Hocc'. congruence.
      * pose proof (occurs_at_head _ _ _ _ _ _ Hocc') as ->.
        apply (proj1 (occurs_at_cons _ _ _ _ _)) in Hocc'. simpl.
        pose proof (Hleft _ _ Hocc'). lia.
Qed.

Lemma text_search_None p s :
  unit_after_digits D (of_string (Re.after p)) ->
  search D p s = None -> forall pre g, ~ occurs_at D p s pre g.
Proof.
  intros Hlit. induction s as [|c s IH]; cbn [search].
  - destruct (match_at D p []) as [g0|] eqn:Hm; [discriminate|].
    intros _ pre g Hocc. destruct pre as [|c' pre].
    + apply (occurs_match_at p _ g Hlit) in Hocc. congruence.
    + destruct Hocc as (_ & post & H). discriminate H.
  - destruct (match_at D p (c :: s)) as [g0|] eqn:Hm; [discriminate|].
    intros Hs pre g Hocc. destruct pre as [|c' pre].
    + apply (occurs_match_at p _ g Hlit) in Hocc. congruence.
    + pose proof (occurs_at_head _ _ _ _ _ _ Hocc) as ->.
      apply (proj1 (occurs_at_cons _ _ _ _ _)) in Hocc.
      by apply (IH Hs pre g).
Qed.

(** [re.search] gives the digits of the leftmost occurrence. *)
Lemma text_search_leftmost p s pre g :
  unit_after_digits D (of_string (Re.after p)) ->
  occurs_at D p s pre g ->
  (forall pre' g', occurs_at D p s pre' g' -> (length pre <= length pre')%nat) ->
  search D p s = Some g.
Proof.
  intros Hlit Hocc Hleft. destruct (search D p s) as [g1|] eqn:Hs.
  - destruct (text_search_Some p s g1 Hlit Hs) as (pre1 & Hocc1 & Hleft1).
    pose proof (Hleft _ _ Hocc1) as L1. pose proof (Hleft1 _ _ Hocc) as L2.
    destruct Hocc as (Hg & post & E), Hocc1 as (Hg1 & post1 & E1).
    rewrite E in E1. apply app_inj_1 in E1 as [_ E1]; [|lia].
    apply app_inv_head in E1.
    pose proof (text_match_digits_first _ post g Hlit Hg) as M.
    rewrite E1, (text_match_digits_first _ post1 g1 Hlit Hg1) in M.
    by injection M as ->.
  - by destruct (text_search_None p s Hlit Hs pre g).
Qed.

Lemma decimal_value_nonneg g acc :
  0 <= acc -> forallb (is_decimal D) g = true -> 0 <= decimal_value D acc g.
Proof.
  revert acc. induction g as [|c g IH]; simpl; intros acc Hacc; [done|].
  intros [Hc Hg]%andb_prop. apply IH; [|done].
  unfold is_decimal in Hc. lia.
Qed.

Lemma text_extract_patterns_lookup content m0 name p :
  (name, p) ∈ patterns ->
  extract_patterns D content m0 !! name
  = Some (match search D p content with Some g => g | None => NA end).
Proof.
  unfold extract_patterns, patterns. simpl. intros H.
  repeat (apply elem_of_cons in H as [[= -> ->]|H];
          [by simplify_map_eq|]).
  inversion H.
Qed.

Lemma text_extract_patterns_other content m0 k :
  k ∉ metric_names -> extract_patterns D content m0 !! k = m0 !! k.
Proof.
  unfold extract_patterns, metric_names, patterns. simpl. intros H.
  rewrite !lookup_insert_ne; [done|..]; intros <-; apply H; set_solver.
Qed.

Lemma text_extract_patterns_dom content (m0 : gmap string text) :
  dom (extract_patterns D content m0) = dom m0 ∪ list_to_set metric_names.
Proof.
  apply set_eq. intros k. rewrite elem_of_union, !elem_of_dom.
  rewrite elem_of_list_to_set.
  destruct (decide (k ∈ metric_names)) as [Hk|Hk].
  - destruct (ExtractFacts.metric_names_patterns k Hk) as [p Hp].
    rewrite (text_extract_patterns_lookup content m0 k p Hp).
    split; [by right|by eexists].
  - rewrite text_extract_patterns_other by done. tauto.
Qed.

Hypothesis D_ascii : ascii_digits D.

Lemma ascii_decimal c :
  (c < 128)%N -> is_decimal D c = ((48 <=? c) && (c <=? 57))%N.
Proof.
  intros Hc. unfold is_decimal. rewrite (D_ascii c Hc).
  destruct (N.leb_spec 48 c), (N.leb_spec c 57); simpl; lia.
Qed.

Lemma patterns_unit name p :
  (name, p) ∈ patterns -> unit_after_digits D (of_string (Re.after p)).
Proof.
  unfold patterns. intros H.
  repeat (apply elem_of_cons in H as [[= -> ->]|H];
          [simpl; by rewrite ascii_decimal|]).
  inversion H.
Qed.

Lemma NA_not_decimals : ~ decimals D NA.
Proof.
  intros [_ H]. unfold NA in H. simpl in H.
  rewrite ascii_decimal in H by done. discriminate H.
Qed.

(** C9: whatever the text, of any code points, the extractor's loop leaves
    exactly one entry for each metric name and touches no other entry. The
    entry is the marker N/A exactly when the text nowhere holds the metric's
    label, a non-empty run of decimal digits and the unit in a row;
    otherwise it is the run of digits of the leftmost such place, which
    denotes a non-negative integer. A text that holds File open time: 42ms,
    no open-time reading before it, and no save-time reading gives
    FileOpenTime 42 and FileSaveTime N/A in the same record. *)
Theorem extractor_entries (content : text) (metrics0 : gmap string text) :
  (forall name p, (name, p) ∈ patterns ->
     exists v,
       extract_patterns D content metrics0 !! name = Some v
       /\ (v = NA \/ decimals D v)
       /\ (v <> NA -> 0 <= decimal_value D 0 v)
       /\ (v = NA <-> forall pre g, ~ occurs_at D p content pre g)
       /\ (forall pre g,
             occurs_at D p content pre g ->
             (forall pre' g', occurs_at D p content pre' g' ->
                (length pre <= length pre')%nat) ->
             v = g))
  /\ (forall name, name ∈ metric_names <-> exists p, (name, p) ∈ patterns)
  /\ dom (extract_patterns D content metrics0)
     = dom metrics0 ∪ list_to_set metric_names
  /\ (forall k, k ∉ metric_names ->
        extract_patterns D content metrics0 !! k = metrics0 !! k)
  /\ (forall pre post,
        content = pre ++ of_string "File open time: 42ms" ++ post ->
        (forall pre' g',
           occurs_at D {| Re.before := "File open time: "; Re.after := "ms" |}
             content pre' g' ->
           (length pre <= length pre')%nat) ->
        (forall pre' g',
           ~ occurs_at D {| Re.before := "File save time: "; Re.after := "ms" |}
               content pre' g') ->
        extract_patterns D content metrics0 !! "FileOpenTime"
        = Some (of_string "42")
        /\ extract_patterns D content metrics0 !! "FileSaveTime" = Some NA).
Proof.
  assert (Hentry : forall name p, (name, p) ∈ patterns ->
    exists v,
      extract_patterns D content metrics0 !! name = Some v
      /\ (v = NA \/ decimals D v)
      /\ (v <> NA -> 0 <= decimal_value D 0 v)
      /\ (v = NA <-> forall pre g, ~ occurs_at D p content pre g)
      /\ (forall pre g,
            occurs_at D p content pre g ->
            (forall pre' g', occurs_at D p content pre' g' ->
               (length pre <= length pre')%nat) ->
            v = g)).
  { intros name p Hp. pose proof (patterns_unit name p Hp) as Hlit.
    rewrite (text_extract_patterns_lookup content metrics0 name p Hp).
    destruct (search D p content) as [g|] eqn:Hs.
    - destruct (text_search_Some p content g Hlit Hs) as (pre & Hocc & Hleft).
      pose proof Hocc as [Hg _].
      exists g. split; [done|]. split; [by right|].
      split; [intros _; apply decimal_value_nonneg; [done|apply Hg]|].
      split.
      + split.
        * intros ->. by destruct NA_not_decimals.
        * intros Hno. by destruct (Hno pre g).
      + intros pre0 g0 Hocc0 Hleft0.
        pose proof (text_search_leftmost p content pre0 g0 Hlit Hocc0 Hleft0).
        congruence.
    - exists NA. split; [done|]. split; [by left|]. split; [done|].
      split.
      + split; [|done]. intros _. by apply text_search_None.
      + intros pre0 g0 Hocc0 _. by destruct (text_search_None p content Hlit Hs pre0 g0). }
  split; [exact Hentry|].
  split.
  { intros name. split; [apply ExtractFacts.metric_names_patterns|].
    intros [p Hp]. unfold metric_names. apply list_elem_of_fmap.
    by exists (name, p). }
  split; [apply text_extract_patterns_dom|].
  split; [intros k Hk; by apply text_extract_patterns_other|].
  intros pre post Hcontent Hfirst Hsave.
  assert (Hopen : (("FileOpenTime" : string),
                   {| Re.before := "File open time: "; Re.after := "ms" |})
                  ∈ patterns) by (unfold patterns; repeat constructor).
  assert (Hsavep : (("FileSaveTime" : string),
                    {| Re.before := "File save time: "; Re.after := "ms" |})
                   ∈ patterns) by (unfold patterns; repeat constructor).
  split.
  - destruct (Hentry _ _ Hopen) as (v & -> & _ & _ & _ & Hv).
    f_equal. apply (Hv pre (of_string "42")); [|exact Hfirst].
    split.
    + split; [done|]. simpl. by rewrite !ascii_decimal.
    + exists post. rewrite Hcontent. reflexivity.
  - destruct (Hentry _ _ Hsavep) as (v & -> & _ & _ & [_ Hv] & _).
    f_equal. by apply Hv.
Qed.

(** Where no match starts, no occurrence starts. *)
Lemma no_match_before p s n :
  unit_after_digits D (of_string (Re.after p)) ->
  forallb (fun i => is_None (match_at D p (drop i s))) (seq 0 n) = true ->
  forall pre g, occurs_at D p s pre g -> (n <= length pre)%nat.
Proof.
  intros Hlit H pre g Hocc.
  destruct (le_lt_dec n (length pre)) as [|Hlt]; [done|]. exfalso.
  rewrite forallb_forall in H. specialize (H (length pre)).
  rewrite (occurs_match_at p _ g Hlit) in H.
  - discriminate H. apply in_seq. lia.
  - destruct Hocc as (Hg & post & ->). rewrite drop_app_length.
    split; [done|]. by exists post.
Qed.

End Database.

Lemma example_digits_ascii : ascii_digits example_digits.
Proof.
  intros c Hc. unfold example_digits.
  destruct ((48 <=? c) && (c <=? 57))%N; [done|].
  destruct (N.leb_spec 1632 c); [lia|done].
Qed.

Lemma extractor_entries_witness :
  (extract_patterns example_digits
     (of_string "First run File open time: 42ms") ∅ !! "FileOpenTime"
   = Some (of_string "42")
   /\ extract_patterns example_digits
        (of_string "First run File open time: 42ms") ∅ !! "FileSaveTime"
      = Some NA)
  /\ extract_patterns example_digits
       (of_string "File open time: " ++ [1636; 1634]%N ++ of_string "ms") ∅
     !! "FileOpenTime"
     = Some [1636; 1634]%N.
Proof.
  pose proof (extractor_entries example_digits example_digits_ascii) as H.
  split.
  - destruct (H (of_string "First run File open time: 42ms") ∅)
      as (_ & _ & _ & _ & H5).
    apply (H5 (of_string "First run ") []); [reflexivity| |].
    + apply (no_match_before example_digits _ _ 10);
        vm_compute; reflexivity.
    + apply text_search_None; vm_compute; reflexivity.
  - destruct (H (of_string "File open time: " ++ [1636; 1634]%N
                 ++ of_string "ms") ∅) as (H1 & _).
    destruct (H1 "FileOpenTime"
                {| Re.before := "File open time: "; Re.after := "ms" |})
      as (v & Hv & _ & _ & _ & Hleft);
      [unfold patterns; repeat constructor|].
    rewrite Hv. f_equal. apply (Hleft [] [1636; 1634]%N).
    + split; [split; [done|reflexivity]|]. by exists [].
    + intros. simpl. lia.
Defined.

Section Latin1.
Variable D : N -> Z.
Hypothesis D_latin1 : latin1_digits D.

Lemma latin1_is_decimal c : is_decimal D (N_of_ascii c) = is_digit c.
Proof.
  unfold is_decimal, is_digit, code.
  rewrite (D_latin1 _ (N_ascii_bounded c)).
  destruct (N.leb_spec 48 (N_of_ascii c)), (N.leb_spec (N_of_ascii c) 57),
    (Z.leb_spec 48 (Z.of_N (N_of_ascii c))),
    (Z.leb_spec (Z.of_N (N_of_ascii c)) 57); simpl; lia.
Qed.

Lemma N_of_ascii_eqb c c' : N.eqb (N_of_ascii c) (N_of_ascii c') = Ascii.eqb c c'.
Proof.
  destruct (Ascii.eqb_spec c c') as [->|Hne]; [apply N.eqb_refl|].
  apply N.eqb_neq. intros H. apply Hne.
  by rewrite <- (ascii_N_embedding c), <- (ascii_N_embedding c'), H.
Qed.

Lemma latin1_match_literal lit s :
  match_literal (of_string lit) (of_string s)
  = of_string <$> Re.match_literal lit s.
Proof.
  revert s. induction lit as [|c lit IH]; intros s; [done|].
  destruct s as [|c' s]; [done|]. simpl. rewrite N_of_ascii_eqb.
  by destruct (Ascii.eqb c c').
Qed.

Lemma latin1_match_digits lit s :
  match_digits D (of_string lit) (of_string s)
  = of_string <$> Re.match_digits lit s.
Proof.
  induction s as [|c s IH]; [done|]. simpl.
  rewrite latin1_is_decimal, IH, latin1_match_literal.
  destruct (is_digit c); [|done].
  destruct (Re.match_digits lit s); [done|].
  by destruct (Re.match_literal lit s).
Qed.

Lemma latin1_match_at p s :
  match_at D p (of_string s) = of_string <$> Re.match_at p s.
Proof.
  unfold match_at, Re.match_at. rewrite latin1_match_literal.
  destruct (Re.match_literal (Re.before p) s); [|done]. simpl.
  apply latin1_match_digits.
Qed.

Lemma text_search_unfold p (s : text) :
  search D p s
  = match match_at D p s with
    | Some g => Some g
    | None => match s with [] => None | _ :: s' => search D p s' end
    end.
Proof. by destruct s. Qed.

(** On text of code points below 256, [re.search] is [Re.search]. *)
Lemma latin1_search p s :
  search D p (of_string s) = of_string <$> Re.search p s.
Proof.
  induction s as [|c s IH]; rewrite text_search_unfold, latin1_match_at;
    cbn [Re.search].
  - by destruct (Re.match_at p EmptyString).
  - destruct (Re.match_at p (String c s)); [done|]. exact IH.
Qed.

(** X12: on text whose code points are all below 256, where the only
    decimal digits are the ten ASCII ones, the extractor's loop on text of
    any code points and its loop on strings give the same record: each
    entry of the one is the entry of the other, code point by code point. *)
Theorem latin1_extract_patterns content (m : gmap string string) :
  extract_patterns D (of_string content) (of_string <$> m)
  = of_string <$> ExtractMetrics.extract_patterns content m.
Proof.
  unfold extract_patterns, ExtractMetrics.extract_patterns, patterns.
  cbn [foldl fst snd]. rewrite !fmap_insert, !latin1_search.
  repeat match goal with
         | |- context [Re.search ?p content] =>
             destruct (Re.search p content)
         end; reflexivity.
Qed.
End Latin1.

Lemma example_digits_latin1 : latin1_digits example_digits.
Proof.
  intros c Hc. unfold example_digits.
  destruct ((48 <=? c) && (c <=? 57))%N; [done|].
  destruct (N.leb_spec 1632 c); [lia|done].
Qed.

Lemma latin1_extract_patterns_witness :
  extract_patterns example_digits (of_string "Memory usage: 512MB")
    (of_string <$> ∅)
  = of_string <$> ExtractMetrics.extract_patterns "Memory usage: 512MB" ∅.
Proof.
  apply (latin1_extract_patterns example_digits example_digits_latin1).
Defined.

End UnicodeFacts.

Module FloatFacts.
Import Py PyFacts Ledger.

Lemma iter_pos_invariant {A} (P : A -> Prop) (f : A -> A) :
  (forall x, P x -> P (f x)) -> forall n x, P x -> P (SpecFloat.iter_pos f n x).
Proof. intros Hf. induction n; simpl; auto. Qed.

Lemma shr_1_nonneg mrs : 0 <= shr_m mrs -> 0 <= shr_m (shr_1 mrs).
Proof.
  destruct mrs as [m r s]. simpl.
  destruct m as [|[p|p|]|[p|p|]]; simpl; lia.
Qed.

Lemma shr_nonneg mrs e n : 0 <= shr_m mrs -> 0 <= shr_m (fst (shr mrs e n)).
Proof.
  intros H. unfold shr. destruct n; simpl; try done.
  by apply (iter_pos_invariant (fun x => 0 <= shr_m x)), H; apply shr_1_nonneg.
Qed.

Lemma shr_fexp_nonneg m e l :
  0 <= m -> 0 <= shr_m (fst (shr_fexp prec emax m e l)).
Proof.
  intros H. unfold shr_fexp. apply shr_nonneg.
  by destruct l as [|[]].
Qed.

Lemma round_nearest_even_nonneg m l : 0 <= m -> 0 <= round_nearest_even m l.
Proof.
  intros H. unfold round_nearest_even.
  destruct l as [|[]]; try done; [destruct (Z.even m)|]; lia.
Qed.

(** Rounding keeps the sign it is given and never yields a NaN. *)
Lemma binary_round_aux_sign s m e l :
  0 <= m -> sign_bit (binary_round_aux prec emax s m e l) = Some s.
Proof.
  intros Hm. unfold binary_round_aux.
  pose proof (shr_fexp_nonneg m e l Hm) as H1.
  destruct (shr_fexp prec emax m e l) as [mrs' e']. simpl in H1.
  pose proof (shr_fexp_nonneg _ e' loc_Exact
                (round_nearest_even_nonneg _ (loc_of_shr_record mrs') H1)) as H2.
  destruct (shr_fexp prec emax _ e' loc_Exact) as [mrs'' e'']. simpl in H2.
  destruct (shr_m mrs'') as [|p|p]; [done| |lia].
  by destruct (e'' <=? emax - prec).
Qed.

Lemma binary_round_sign s m e :
  sign_bit (binary_round prec emax s m e) = Some s.
Proof.
  unfold binary_round. destruct (shl_align _ _ _) as [mz ez].
  by apply binary_round_aux_sign.
Qed.

Lemma SFmul_sign x y sx sy :
  sign_bit x = Some sx -> is_finite_nonzero y = true -> sign_bit y = Some sy ->
  sign_bit (SFmul prec emax x y) = Some (xorb sx sy).
Proof.
  destruct y as [| | |s' my ey]; try discriminate. intros Hx _ [= <-].
  destruct x as [s|s| |s mx ex]; simpl in *; simplify_eq; try done.
  by apply binary_round_aux_sign.
Qed.

Lemma SFdiv_sign x y sx sy :
  sign_bit x = Some sx -> is_finite_nonzero y = true -> sign_bit y = Some sy ->
  sign_bit (SFdiv prec emax x y) = Some (xorb sx sy).
Proof.
  destruct y as [| | |s' my ey]; try discriminate. intros Hx _ [= <-].
  destruct x as [s|s| |s mx ex]; simpl in *; simplify_eq; try done.
  unfold SFdiv_core_binary.
  set (m' := match _ with Z.pos _ => _ | _ => _ end).
  assert (0 <= m') as Hm'.
  { subst m'. destruct (_ - _ - _) eqn:E; try lia.
    rewrite Z.shiftl_mul_pow2 by lia. apply Z.mul_nonneg_nonneg; lia. }
  pose proof (Z.div_pos m' (Z.pos my) Hm' eq_refl) as Hq.
  unfold Z.div in Hq. destruct (Z.div_eucl m' (Z.pos my)) as [q r].
  by apply binary_round_aux_sign.
Qed.

(** The two differences of finite floats: both vanish, or they have
    opposite signs. *)
Lemma SFsub_swap x y :
  is_finite_nonzero x = true -> is_finite_nonzero y = true ->
  is_zero (SFsub prec emax y x) = false ->
  exists d, sign_bit (SFsub prec emax y x) = Some d
            /\ sign_bit (SFsub prec emax x y) = Some (negb d).
Proof.
  destruct x as [| | |sx mx ex]; try discriminate.
  destruct y as [| | |sy my ey]; try discriminate. intros _ _.
  simpl. rewrite (Z.min_comm ex ey).
  set (a := cond_Zopp sx (Z.pos (fst (shl_align mx ex (Z.min ey ex))))).
  set (b := cond_Zopp sy (Z.pos (fst (shl_align my ey (Z.min ey ex))))).
  assert (a - b = - (b - a)) as -> by lia.
  destruct (b - a) as [|p|p]; simpl; [discriminate|..]; intros _.
  - exists false. by rewrite !binary_round_sign.
  - exists true. by rewrite !binary_round_sign.
Qed.

Lemma float_of_Z_100 :
  is_finite_nonzero (float_of_Z 100) = true
  /\ sign_bit (float_of_Z 100) = Some false.
Proof. split; reflexivity. Qed.

(** The sign of the percentage of two finite non-zero floats. *)
Lemma percentage_sign x y s d :
  is_finite_nonzero x = true -> sign_bit x = Some s ->
  sign_bit (float_sub y x) = Some d ->
  sign_bit (percentage x y) = Some (xorb d s).
Proof.
  intros Hx Hs Hd. unfold percentage, float_mul.
  destruct float_of_Z_100 as [H1 H2].
  rewrite (SFmul_sign _ _ (xorb d s) false); [by rewrite xorb_false_r| |done..].
  by apply SFdiv_sign.
Qed.

End FloatFacts.

Module ChangeClaims.
Import Py PyFacts CompareBaselines Ledger ChangeFacts FloatFacts.

(** C4, amended: swapping latest and previous does not negate the change,
    because the denominator is swapped too. What holds for two cells:
    when either is not numeric both directions give N/A; when the previous
    one is a numeric zero that direction gives N/A, and the opposite
    direction is numeric, by the formula on its own previous value, when
    that value is a number other than zero; and when both are finite
    non-zero numbers of the same sign whose difference is not zero, both
    directions are numeric, each by the formula on its own previous value,
    and their signs are opposite. *)
Theorem swap_latest_previous (a b : cell) :
  ((exists e, float_of_cell a = Raise e) \/ (exists e, float_of_cell b = Raise e) ->
   calculate_percentage_change a b = Ok NA
   /\ calculate_percentage_change b a = Ok NA)
  /\ (forall z, float_of_cell a = Ok z -> is_zero z = true ->
        calculate_percentage_change a b = Ok NA
        /\ forall y, float_of_cell b = Ok y -> is_zero y = false ->
             calculate_percentage_change b a = Ok (PFloat (percentage y z)))
  /\ (forall x y s,
        float_of_cell a = Ok x -> float_of_cell b = Ok y ->
        is_finite_nonzero x = true -> is_finite_nonzero y = true ->
        sign_bit x = Some s -> sign_bit y = Some s ->
        is_zero (float_sub y x) = false ->
        exists d,
          calculate_percentage_change a b = Ok (PFloat (percentage x y))
          /\ calculate_percentage_change b a = Ok (PFloat (percentage y x))
          /\ sign_bit (percentage x y) = Some d
          /\ sign_bit (percentage y x) = Some (negb d)).
Proof.
  split; [|split].
  - intros [[e He]|[e He]]; split;
      eauto using change_not_numeric_old, change_not_numeric_new.
  - intros z Hz Hzero. split; [eapply change_zero; eauto|].
    intros y Hy Hny. by apply change_numeric.
  - intros x y s Hx Hy Fx Fy Sx Sy Hd.
    destruct (SFsub_swap x y Fx Fy Hd) as (d & D1 & D2).
    exists (xorb d s).
    assert (Zx : is_zero x = false) by (by destruct x).
    assert (Zy : is_zero y = false) by (by destruct y).
    split; [by apply change_numeric|].
    split; [by apply change_numeric|].
    split; [by apply percentage_sign|].
    rewrite (percentage_sign y x s (negb d)) by done.
    by destruct d, s.
Qed.

Lemma swap_latest_previous_witness :
  (exists d,
    calculate_percentage_change (Some "100") (Some "150")
    = Ok (PFloat (percentage (float_of_Z 100) (float_of_Z 150)))
    /\ calculate_percentage_change (Some "150") (Some "100")
       = Ok (PFloat (percentage (float_of_Z 150) (float_of_Z 100)))
    /\ sign_bit (percentage (float_of_Z 100) (float_of_Z 150)) = Some d
    /\ sign_bit (percentage (float_of_Z 150) (float_of_Z 100)) = Some (negb d))
  /\ calculate_percentage_change (Some "0") (Some "50") = Ok NA
  /\ calculate_percentage_change (Some "50") (Some "0")
     = Ok (PFloat (percentage (float_of_Z 50) (float_of_Z 0))).
Proof.
  split.
  - apply (proj2 (proj2 (swap_latest_previous (Some "100") (Some "150")))
             (float_of_Z 100) (float_of_Z 150) false);
      vm_compute; reflexivity.
  - destruct (proj1 (proj2 (swap_latest_previous (Some "0") (Some "50")))
                (float_of_Z 0)) as [H1 H2]; [vm_compute; reflexivity..|].
    split; [exact H1|]. apply H2; vm_compute; reflexivity.
Defined.

(** C4 as stated fails. From 100 to 150 the change is above 49 (it is 50),
    from 150 to 100 its negation is below 34 (it is 33.33...): the two are
    not opposite. With previous 0 and latest 50 one direction is N/A and the
    other is -100. Equal values give +0.0 both ways, and -100 against 100
    gives -200 both ways, so the sign is not always inverted either. *)
Lemma swap_does_not_negate :
  (exists p q,
     calculate_percentage_change (Some "100") (Some "150") = Ok (PFloat p)
     /\ calculate_percentage_change (Some "150") (Some "100") = Ok (PFloat q)
     /\ float_ltb (float_of_Z 49) p = true
     /\ float_ltb (float_neg q) (float_of_Z 34) = true)
  /\ (calculate_percentage_change (Some "0") (Some "50") = Ok NA
      /\ calculate_percentage_change (Some "50") (Some "0")
         = Ok (PFloat (float_of_Z (-100))))
  /\ (calculate_percentage_change (Some "100") (Some "100")
      = Ok (PFloat (S754_zero false)))
  /\ (calculate_percentage_change (Some "-100") (Some "100")
      = Ok (PFloat (float_of_Z (-200)))
      /\ calculate_percentage_change (Some "100") (Some "-100")
         = Ok (PFloat (float_of_Z (-200)))).
Proof.
  split; [|split; [|split]].
  - eexists _, _. repeat split; vm_compute; reflexivity.
  - split; vm_compute; reflexivity.
  - vm_compute; reflexivity.
  - split; vm_compute; reflexivity.
Qed.

End ChangeClaims.

Module DictReaderFacts.
Import Py PyFacts Csv.

Lemma fromkeys_None_lookup names (d : gmap string cell) k :
  fromkeys_None names d !! k
  = if decide (k ∈ names) then Some None else d !! k.
Proof.
  unfold fromkeys_None. revert d.
  induction names as [|n names IH]; intros d; simpl; [done|].
  rewrite IH. destruct (decide (k ∈ names)) as [Hk|Hk].
  - rewrite decide_True; [done|by right].
  - destruct (decide (k = n)) as [->|Hn].
    + rewrite lookup_insert_eq, decide_True; [done|by left].
    + rewrite lookup_insert_ne by done.
      rewrite decide_False; [done|]. by intros [?|?]%elem_of_cons.
Qed.

Lemma foldl_zip_lookup names values (d : gmap string cell) k :
  (k ∈ take (length values) names \/ is_Some (d !! k)) ->
  is_Some (foldl (fun d kv => <[fst kv := Some (snd kv)]> d) d
             (zip names values) !! k).
Proof.
  revert values d.
  induction names as [|n names IH]; intros [|v values] d; simpl;
    try (intros [H|H]; [by inversion H|done]).
  intros [H|H]; apply IH.
  - apply elem_of_cons in H as [->|H]; [right|by left].
    rewrite lookup_insert_eq. by eexists.
  - right. destruct (decide (k = n)) as [->|Hn].
    + rewrite lookup_insert_eq. by eexists.
    + by rewrite lookup_insert_ne.
Qed.

Lemma dict_zip_lookup names values k :
  k ∈ take (length values) names -> is_Some (dict_zip names values !! k).
Proof. intros H. apply foldl_zip_lookup. by left. Qed.

(** What [DictReader] makes of a row, whatever its length. *)
Lemma dict_row_columns header values k :
  k ∈ header -> is_Some (cols (dict_row header values) !! k).
Proof.
  intros Hk. unfold dict_row.
  destruct (Nat.ltb_spec (length header) (length values)) as [Hlt|Hge]; simpl.
  - apply dict_zip_lookup. rewrite take_ge by lia. done.
  - rewrite fromkeys_None_lookup. destruct (decide _); [by eexists|].
    apply dict_zip_lookup.
    rewrite <- (take_drop (length values) header) in Hk.
    by apply elem_of_app in Hk as [?|?].
Qed.

Lemma dict_row_short header values :
  (length values < length header)%nat ->
  restkey (dict_row header values) = None
  /\ forall k, k ∈ drop (length values) header ->
               cols (dict_row header values) !! k = Some None.
Proof.
  intros Hlt. unfold dict_row.
  destruct (Nat.ltb_spec (length header) (length values)) as [?|_]; [lia|].
  simpl. split; [done|]. intros k Hk.
  rewrite fromkeys_None_lookup. by rewrite decide_True.
Qed.

Lemma dict_row_long header values :
  (length header < length values)%nat ->
  restkey (dict_row header values) = Some (drop (length header) values).
Proof.
  intros Hlt. unfold dict_row.
  by destruct (Nat.ltb_spec (length header) (length values)) as [_|?]; [|lia].
Qed.

(** C5, amended: [load_baselines] does not compare a row's column count
    with the header's. Whenever the csv reader splits the file into a
    header and rows, the call returns one record per non-empty row: every
    header column is present in it, a row shorter than the header has
    [None] in the columns it did not reach, and the values of a row beyond
    the header's length are kept in a list under the key [None]. *)
Theorem load_keeps_ragged_rows
  (files : File.fs) (path content : string)
  (header : list string) (data : list (list string)) :
  files !! path = Some content ->
  reader parse_reset (File.text_lines content) = Ok (header :: data) ->
  CompareBaselines.load_baselines files path
  = Ok (map (dict_row header) (filter (fun r => negb (is_nil r)) data))
  /\ forall values,
       (forall k, k ∈ header ->
                  is_Some (cols (dict_row header values) !! k))
       /\ ((length values < length header)%nat ->
           restkey (dict_row header values) = None
           /\ forall k, k ∈ drop (length values) header ->
                        cols (dict_row header values) !! k = Some None)
       /\ ((length header < length values)%nat ->
           restkey (dict_row header values)
           = Some (drop (length header) values)).
Proof.
  intros Hfile Hrows. split.
  - unfold CompareBaselines.load_baselines, File.open_r.
    rewrite Hfile. simpl. rewrite Hrows. reflexivity.
  - intros values. split; [|split].
    + intros k. apply dict_row_columns.
    + apply dict_row_short.
    + apply dict_row_long.
Qed.

Lemma load_keeps_ragged_rows_witness :
  CompareBaselines.load_baselines {[ "ledger.csv" := Ledger.ragged_ledger ]}
    "ledger.csv"
  = Ok (map (dict_row ["Date"; "FileOpenTime"])
          (filter (fun r => negb (is_nil r))
             [["2024-01-01"]; ["2024-02-01"; "5"; "extra"]])).
Proof.
  apply (load_keeps_ragged_rows {[ "ledger.csv" := Ledger.ragged_ledger ]}
           "ledger.csv" Ledger.ragged_ledger);
    vm_compute; reflexivity.
Defined.

(** C5 as stated fails: a ledger whose first row has one value for two
    columns and whose second row has three is loaded without an error; the
    first record has [None] for the missing column and the second keeps
    the extra value under the key [None]. *)
Lemma ragged_rows_are_loaded :
  exists r1 r2,
    CompareBaselines.load_baselines {[ "ledger.csv" := Ledger.ragged_ledger ]}
      "ledger.csv" = Ok [r1; r2]
    /\ cols r1 !! "Date" = Some (Some "2024-01-01")
    /\ cols r1 !! "FileOpenTime" = Some None
    /\ cols r2 !! "FileOpenTime" = Some (Some "5")
    /\ restkey r2 = Some ["extra"].
Proof.
  eexists _, _. split; [vm_compute; reflexivity|].
  repeat split; vm_compute; reflexivity.
Qed.

End DictReaderFacts.

Module AppendFacts.
Import Py PyFacts Csv File ExtractMetrics Ledger ExtractFacts.

Lemma append_nil_r s : s +:+ EmptyString = s.
Proof. induction s as [|c s IH]; [done|]. by rewrite <- IH at 2. Qed.

Lemma append_assoc s1 s2 s3 : (s1 +:+ s2) +:+ s3 = s1 +:+ (s2 +:+ s3).
Proof.
  induction s1 as [|c s1 IH]; [done|].
  change (String c (s1 +:+ s2) +:+ s3 = String c (s1 +:+ (s2 +:+ s3))).
  change (String c ((s1 +:+ s2) +:+ s3) = String c (s1 +:+ (s2 +:+ s3))).
  by rewrite IH.
Qed.

Lemma build_metrics_ok h files input cfg cpu ram raw :
  system_info h = Ok (cpu, ram) -> files !! input = Some raw ->
  build_metrics h files input cfg = Ok (run_record h cpu ram cfg raw).
Proof.
  intros Hi Hf. unfold build_metrics, get_system_info, open_r.
  rewrite Hi, Hf. reflexivity.
Qed.

Lemma build_metrics_inv h files input cfg m :
  build_metrics h files input cfg = Ok m ->
  exists cpu ram raw,
    system_info h = Ok (cpu, ram) /\ files !! input = Some raw
    /\ m = run_record h cpu ram cfg raw.
Proof.
  unfold build_metrics, get_system_info, open_r.
  destruct (system_info h) as [[cpu ram]|e]; [|discriminate]. simpl.
  destruct (files !! input) as [raw|]; [|discriminate]. simpl.
  intros [= <-]. by exists cpu, ram, raw.
Qed.

Lemma run_record_dom h cpu ram cfg raw :
  dom (run_record h cpu ram cfg raw) = list_to_set fieldnames.
Proof.
  unfold run_record. rewrite extract_patterns_dom.
  unfold base_record. rewrite !dom_insert_L, dom_empty_L.
  unfold metric_names, fieldnames. simpl. set_solver.
Qed.

Lemma record_values_length m : length (record_values m) = 13%nat.
Proof. reflexivity. Qed.

Lemma DictWriter_writerow_ok h cpu ram cfg raw :
  DictWriter_writerow fieldnames (run_record h cpu ram cfg raw)
  = Ok (writerow (record_values (run_record h cpu ram cfg raw))).
Proof.
  unfold DictWriter_writerow, dict_to_list.
  rewrite decide_True; [done|]. by rewrite run_record_dom.
Qed.

(** One call of [extract_metrics]: the header goes in front of the row
    only when the store was absent. *)
Lemma extract_metrics_ok h files input out cfg cpu ram raw :
  system_info h = Ok (cpu, ram) -> files !! input = Some raw ->
  extract_metrics h files input out cfg
  = Ok (<[out := match files !! out with
                 | Some old => old
                 | None => DictWriter_writeheader fieldnames
                 end +:+ writerow (record_values (run_record h cpu ram cfg raw))]>
          files).
Proof.
  intros Hi Hf. unfold extract_metrics.
  rewrite (build_metrics_ok _ _ _ _ cpu ram raw Hi Hf). simpl.
  rewrite DictWriter_writerow_ok. simpl. f_equal.
  unfold isfile, append_to.
  destruct (files !! out) as [old|] eqn:Hout.
  - rewrite bool_decide_eq_true_2 by by eexists. simpl.
    rewrite lookup_insert_eq. simpl. rewrite insert_insert_eq.
    by rewrite append_nil_r.
  - rewrite bool_decide_eq_false_2 by by intros [? [=]]. simpl.
    rewrite !lookup_insert_eq. simpl. by rewrite !insert_insert_eq.
Qed.

Lemma extract_metrics_inv h files input out cfg files' :
  extract_metrics h files input out cfg = Ok files' ->
  exists cpu ram raw,
    system_info h = Ok (cpu, ram) /\ files !! input = Some raw.
Proof.
  unfold extract_metrics. intros (m & Hm & _)%bind_Ok.
  apply build_metrics_inv in Hm as (cpu & ram & raw & ? & ? & _).
  by exists cpu, ram, raw.
Qed.

End AppendFacts.



Module ReaderFacts.
Import Py PyFacts Csv File Ledger AppendFacts.

Lemma bind_assoc {A B C} (m : result A) (f : A -> result B) (g : B -> result C) :
  bind (bind m f) g = bind m (fun a => bind (f a) g).
Proof. by destruct m. Qed.

Lemma bind_ext {A B} (m : result A) (f g : A -> result B) :
  (forall a, f a = g a) -> bind m f = bind m g.
Proof. intros H. destruct m; simpl; [apply H|done]. Qed.

Lemma append_cons c s t : String c s +:+ t = String c (s +:+ t).
Proof. reflexivity. Qed.

Lemma append_nil_l t : EmptyString +:+ t = t.
Proof. reflexivity. Qed.

Lemma append_snoc s c t : (s +:+ String c EmptyString) +:+ t = s +:+ String c t.
Proof. by rewrite append_assoc. Qed.

Lemma length_append s t :
  String.length (s +:+ t) = (String.length s + String.length t)%nat.
Proof. induction s as [|c s IH]; [done|]. rewrite append_cons. simpl. by rewrite IH. Qed.

Lemma feed_app p s t : feed p (s +:+ t) = bind (feed p s) (fun p' => feed p' t).
Proof.
  revert p. induction s as [|c s IH]; intros p; [done|].
  rewrite append_cons. simpl. rewrite bind_assoc. apply bind_ext, IH.
Qed.

Lemma parse_line_feed p s :
  parse_line p s = bind (feed p s) (fun p' => Ok (parse_process_eol p')).
Proof.
  revert p. induction s as [|c s IH]; intros p; simpl; [done|].
  rewrite bind_assoc. apply bind_ext, IH.
Qed.

Lemma reader_reset_nil : reader parse_reset [] = Ok [].
Proof. reflexivity. Qed.

(** The reader over the lines of a text is [flat] over the text. *)
Lemma reader_lines_from s cur p0 :
  reader p0 (lines_from cur s)
  = bind (feed p0 cur)
      (fun p => flat p (negb (String.eqb cur EmptyString)) s).
Proof.
  revert cur p0. induction s as [|c s IH]; intros cur p0.
  - simpl lines_from. destruct cur as [|c0 cur]; [done|].
    cbn [reader String.eqb negb flat]. rewrite parse_line_feed, bind_assoc.
    apply bind_ext. intros p. simpl.
    by destruct (is_START_RECORD (st (parse_process_eol p))).
  - cbn [lines_from flat]. destruct (Ascii.eqb c LF) eqn:Hc.
    + apply Ascii.eqb_eq in Hc as ->. cbn [reader].
      rewrite parse_line_feed, feed_app, !bind_assoc. apply bind_ext.
      intros p. simpl feed. rewrite !bind_assoc. apply bind_ext. intros p1.
      simpl. rewrite !IH. simpl.
      by destruct (is_START_RECORD (st (parse_process_eol p1))).
    + rewrite IH, feed_app, bind_assoc. apply bind_ext. intros p.
      simpl feed. rewrite bind_assoc. apply bind_ext. intros p1. simpl.
      destruct cur; reflexivity.
Qed.

Lemma reader_text_lines content :
  reader parse_reset (text_lines content)
  = flat parse_reset false (universal_newlines content).
Proof. unfold text_lines. by rewrite reader_lines_from. Qed.

Lemma parse_add_char_ok c s0 acc fs :
  Z.of_nat (String.length acc) < field_limit ->
  parse_add_char c {| st := s0; field := acc; fields := fs |}
  = Ok {| st := s0; field := acc +:+ String c EmptyString; fields := fs |}.
Proof.
  intros H. unfold parse_add_char. simpl.
  destruct (Z.leb_spec field_limit (Z.of_nat (String.length acc))); [lia|done].
Qed.

Lemma needs_quote_false c :
  needs_quote c = false ->
  Ascii.eqb c COMMA = false /\ Ascii.eqb c DQUOTE = false
  /\ Ascii.eqb c CR = false /\ Ascii.eqb c LF = false.
Proof.
  unfold needs_quote. intros H.
  apply orb_false_elim in H as [H H4]. apply orb_false_elim in H as [H H3].
  apply orb_false_elim in H as [H1 H2]. done.
Qed.

(** One character of [flat]. *)
Lemma flat_char p p1 mid c s :
  Ascii.eqb c LF = false -> parse_process_char p c = Ok p1 ->
  flat p mid (String c s) = flat p1 true s.
Proof. intros Hc Hp. cbn [flat]. by rewrite Hp, Hc. Qed.

Lemma flat_LF_open p p1 mid s :
  parse_process_char p LF = Ok p1 ->
  is_START_RECORD (st (parse_process_eol p1)) = false ->
  flat p mid (String LF s) = flat (parse_process_eol p1) false s.
Proof. intros Hp He. cbn [flat]. rewrite Hp. cbn [bind]. by rewrite He. Qed.

Lemma flat_LF_close p p1 mid s :
  parse_process_char p LF = Ok p1 ->
  is_START_RECORD (st (parse_process_eol p1)) = true ->
  flat p mid (String LF s)
  = bind (flat parse_reset false s)
      (fun rows => Ok (fields (parse_process_eol p1) :: rows)).
Proof. intros Hp He. cbn [flat]. rewrite Hp. cbn [bind]. by rewrite He. Qed.

(** A delimiter that ends a field. *)
Lemma flat_delimiter s0 acc fs mid d rest :
  s0 = START_FIELD \/ s0 = IN_FIELD \/ s0 = QUOTE_IN_QUOTED_FIELD ->
  d = COMMA \/ d = LF ->
  flat {| st := s0; field := acc; fields := fs |} mid (String d rest)
  = flat_after d (fs ++ [acc]) rest.
Proof.
  intros [-> | [-> | ->]] [-> | ->]; reflexivity.
Qed.

(** The rest of an unquoted field, then its delimiter. *)
Lemma flat_unquoted_tail g acc fs mid d rest :
  all_chars (fun c => negb (needs_quote c)) g = true ->
  d = COMMA \/ d = LF ->
  Z.of_nat (String.length acc + String.length g) <= field_limit ->
  flat {| st := IN_FIELD; field := acc; fields := fs |} mid
    (g +:+ String d rest)
  = flat_after d (fs ++ [acc +:+ g]) rest.
Proof.
  revert acc mid. induction g as [|c g IH]; intros acc mid Hg Hd Hlen.
  - rewrite append_nil_l, append_nil_r. apply flat_delimiter; auto.
  - simpl in Hg. apply andb_prop in Hg as [Hc Hg].
    apply negb_true_iff, needs_quote_false in Hc as (C1 & C2 & C3 & C4).
    rewrite append_cons.
    rewrite (flat_char _ {| st := IN_FIELD;
                            field := acc +:+ String c EmptyString;
                            fields := fs |}); [|done|].
    + rewrite IH; [by rewrite append_snoc|done..|].
      rewrite length_append. simpl in *. lia.
    + unfold parse_process_char, is_newline. cbn [st].
      rewrite C4, C3, C1. cbn [orb].
      apply parse_add_char_ok. simpl in Hlen. lia.
Qed.

(** The inside of a quoted field, its closing quote and its delimiter. *)
Lemma flat_quoted_body g acc fs mid d rest :
  all_chars (fun c => negb (Ascii.eqb c CR)) g = true ->
  d = COMMA \/ d = LF ->
  Z.of_nat (String.length acc + String.length g) <= field_limit ->
  flat {| st := IN_QUOTED_FIELD; field := acc; fields := fs |} mid
    (double_quotes g +:+ String DQUOTE (String d rest))
  = flat_after d (fs ++ [acc +:+ g]) rest.
Proof.
  revert acc mid. induction g as [|c g IH]; intros acc mid Hg Hd Hlen.
  - rewrite append_nil_r. simpl double_quotes. rewrite append_nil_l.
    rewrite (flat_char _ {| st := QUOTE_IN_QUOTED_FIELD; field := acc;
                            fields := fs |}); [|done..].
    apply flat_delimiter; auto.
  - simpl in Hg. apply andb_prop in Hg as [Hc Hg].
    apply negb_true_iff in Hc.
    assert (Hacc : Z.of_nat (String.length acc) < field_limit)
      by (simpl in Hlen; lia).
    assert (Hlen' : Z.of_nat (String.length (acc +:+ String c EmptyString)
                              + String.length g) <= field_limit).
    { rewrite length_append. simpl in *. lia. }
    pose proof (parse_add_char_ok c IN_QUOTED_FIELD acc fs Hacc) as Hadd.
    simpl double_quotes. destruct (Ascii.eqb c DQUOTE) eqn:Hq.
    + apply Ascii.eqb_eq in Hq as ->. rewrite !append_cons.
      rewrite (flat_char _ {| st := QUOTE_IN_QUOTED_FIELD; field := acc;
                              fields := fs |}); [|done..].
      rewrite (flat_char _ {| st := IN_QUOTED_FIELD;
                              field := acc +:+ String DQUOTE EmptyString;
                              fields := fs |}); [|done|].
      * rewrite IH; [by rewrite append_snoc|done..].
      * unfold parse_process_char. cbn [st].
        change (Ascii.eqb DQUOTE DQUOTE) with true. cbv iota.
        by rewrite (parse_add_char_ok DQUOTE QUOTE_IN_QUOTED_FIELD acc fs Hacc).
    + assert (Hstep : parse_process_char
                        {| st := IN_QUOTED_FIELD; field := acc; fields := fs |} c
                      = Ok {| st := IN_QUOTED_FIELD;
                              field := acc +:+ String c EmptyString;
                              fields := fs |}).
      { unfold parse_process_char. cbn [st]. by rewrite Hq. }
      rewrite append_cons. destruct (Ascii.eqb c LF) eqn:Hl.
      * apply Ascii.eqb_eq in Hl as ->.
        rewrite (flat_LF_open _ _ _ _ Hstep) by done.
        cbn [parse_process_eol st].
        rewrite IH; [by rewrite append_snoc|done..].
      * rewrite (flat_char _ _ _ _ _ Hl Hstep).
        rewrite IH; [by rewrite append_snoc|done..].
Qed.

(** A written field and the delimiter after it, read at the start of a
    field. At the start of a record a line feed may follow only the single
    field of a row, which is then never written as nothing. *)
Lemma flat_field s0 fs mid alone f d rest :
  clean_field f ->
  d = COMMA \/ d = LF ->
  s0 = START_FIELD \/ (s0 = START_RECORD /\ (d = COMMA \/ alone = true)) ->
  flat {| st := s0; field := EmptyString; fields := fs |} mid
    (write_field alone f +:+ String d rest)
  = flat_after d (fs ++ [f]) rest.
Proof.
  intros [Hcr Hlen] Hd Hs. unfold write_field.
  destruct (is_quoted alone f) eqn:Hq.
  - rewrite append_cons, append_snoc.
    rewrite (flat_char _ {| st := IN_QUOTED_FIELD; field := EmptyString;
                            fields := fs |}); [|done|].
    + by rewrite flat_quoted_body.
    + by destruct Hs as [-> | [-> _]].
  - unfold is_quoted in Hq. apply orb_false_elim in Hq as [Hplain Halone].
    apply negb_false_iff in Hplain.
    destruct f as [|c f].
    + rewrite append_nil_l. destruct Hs as [-> | [-> [-> | ->]]].
      * apply flat_delimiter; auto.
      * reflexivity.
      * discriminate Halone.
    + simpl in Hplain. apply andb_prop in Hplain as [Hc Hplain].
      apply negb_true_iff in Hc.
      pose proof (needs_quote_false c Hc) as (C1 & C2 & C3 & C4).
      rewrite append_cons.
      rewrite (flat_char _ {| st := IN_FIELD; field := String c EmptyString;
                              fields := fs |}); [|done|].
      * rewrite flat_unquoted_tail; [done..|]. simpl in *. lia.
      * assert (Hstart : start_field
                           {| st := s0; field := EmptyString; fields := fs |} c
                         = Ok {| st := IN_FIELD; field := String c EmptyString;
                                 fields := fs |}).
        { unfold start_field, is_newline. rewrite C4, C3, C2, C1. cbn [orb].
          by rewrite parse_add_char_ok. }
        unfold parse_process_char, is_newline. cbn [st].
        rewrite C4, C3. cbn [orb]. by destruct Hs as [-> | [-> _]].
Qed.

(** The fields of a row after the first, up to the end of the line. *)
Lemma flat_fields l fs mid rest :
  l <> [] -> Forall clean_field l ->
  flat {| st := START_FIELD; field := EmptyString; fields := fs |} mid
    (join_fields (map (write_field false) l) +:+ String LF rest)
  = bind (flat parse_reset false rest) (fun rows => Ok ((fs ++ l) :: rows)).
Proof.
  revert fs mid. induction l as [|f l IH]; intros fs mid Hne Hl; [done|].
  apply Forall_cons in Hl as [Hf Hl]. destruct l as [|f2 l].
  - simpl join_fields. rewrite flat_field; auto.
  - change (join_fields (map (write_field false) (f :: f2 :: l)))
      with (write_field false f
            +:+ String COMMA (join_fields (map (write_field false) (f2 :: l)))).
    rewrite append_assoc, append_cons. rewrite flat_field; auto.
    unfold flat_after. change (Ascii.eqb COMMA LF) with false. cbv iota.
    rewrite IH by done. by rewrite <- app_assoc.
Qed.

(** A written row, read from the start of a record. *)
Lemma flat_row r mid rest :
  clean_row r ->
  flat parse_reset mid
    (join_fields (map (write_field (length r =? 1)%nat) r) +:+ String LF rest)
  = bind (flat parse_reset false rest) (fun rows => Ok (r :: rows)).
Proof.
  intros Hr. destruct r as [|f [|f2 l]].
  - reflexivity.
  - apply Forall_cons in Hr as [Hf _]. simpl join_fields.
    unfold parse_reset.
    rewrite (flat_field START_RECORD [] mid true f LF); auto.
  - apply Forall_cons in Hr as [Hf Hl].
    change (length (f :: f2 :: l) =? 1)%nat with false.
    change (join_fields (map (write_field false) (f :: f2 :: l)))
      with (write_field false f
            +:+ String COMMA (join_fields (map (write_field false) (f2 :: l)))).
    rewrite append_assoc, append_cons. unfold parse_reset at 1.
    rewrite (flat_field START_RECORD [] mid false f COMMA); auto.
    unfold flat_after. change (Ascii.eqb COMMA LF) with false. cbv iota.
    by rewrite flat_fields.
Qed.

(** The writer puts no carriage return into a row that has none. *)
Lemma all_chars_append q s t :
  all_chars q (s +:+ t) = all_chars q s && all_chars q t.
Proof.
  induction s as [|c s IH]; [done|]. rewrite append_cons. simpl.
  by rewrite IH, andb_assoc.
Qed.

Lemma double_quotes_no_CR f :
  all_chars (fun c => negb (Ascii.eqb c CR)) f = true ->
  all_chars (fun c => negb (Ascii.eqb c CR)) (double_quotes f) = true.
Proof.
  induction f as [|c f IH]; simpl; [done|].
  intros [Hc Hf]%andb_prop. destruct (Ascii.eqb c DQUOTE) eqn:Hq; simpl.
  - by apply IH.
  - by rewrite Hc, IH.
Qed.

Lemma write_field_no_CR alone f :
  clean_field f ->
  all_chars (fun c => negb (Ascii.eqb c CR)) (write_field alone f) = true.
Proof.
  intros [Hf _]. unfold write_field. destruct (is_quoted alone f); [|done].
  simpl. rewrite all_chars_append, double_quotes_no_CR by done. done.
Qed.

Lemma join_fields_no_CR alone r :
  clean_row r ->
  all_chars (fun c => negb (Ascii.eqb c CR))
    (join_fields (map (write_field alone) r)) = true.
Proof.
  induction r as [|f r IH]; [done|]. intros [Hf Hr]%Forall_cons.
  destruct r as [|f2 r]; [by apply write_field_no_CR|].
  change (join_fields (map (write_field alone) (f :: f2 :: r)))
    with (write_field alone f
          +:+ String COMMA (join_fields (map (write_field alone) (f2 :: r)))).
  rewrite all_chars_append, write_field_no_CR by done. simpl. by apply IH.
Qed.

Lemma universal_newlines_line b rest :
  all_chars (fun c => negb (Ascii.eqb c CR)) b = true ->
  universal_newlines (b +:+ String CR (String LF rest))
  = b +:+ String LF (universal_newlines rest).
Proof.
  induction b as [|c b IH]; [done|]. simpl all_chars.
  intros [Hc Hb]%andb_prop. apply negb_true_iff in Hc.
  rewrite !append_cons. simpl universal_newlines. rewrite Hc. by rewrite IH.
Qed.

(** What the writer wrote, the reader reads. *)
Lemma flat_write_rows rows :
  Forall clean_row rows ->
  flat parse_reset false (universal_newlines (write_rows rows)) = Ok rows.
Proof.
  induction rows as [|r rows IH]; [done|]. intros [Hr Hrows]%Forall_cons.
  simpl write_rows. unfold writerow, lineterminator.
  rewrite append_assoc, !append_cons, append_nil_l.
  rewrite universal_newlines_line by by apply join_fields_no_CR.
  rewrite flat_row by done. by rewrite IH.
Qed.

Lemma reader_write_rows rows :
  Forall clean_row rows ->
  reader parse_reset (text_lines (write_rows rows)) = Ok rows.
Proof. intros H. rewrite reader_text_lines. by apply flat_write_rows. Qed.

End ReaderFacts.

Module LedgerClaims.
Import Py PyFacts Csv File ExtractMetrics Ledger ExtractFacts AppendFacts
  ReaderFacts DictReaderFacts.

Lemma fieldnames_clean : clean_row fieldnames.
Proof.
  unfold clean_row, fieldnames.
  repeat (apply Forall_cons; split; [split; [reflexivity|by vm_compute]|]).
  apply Forall_nil_2.
Qed.

Lemma write_rows_app l1 l2 :
  write_rows (l1 ++ l2) = write_rows l1 +:+ write_rows l2.
Proof.
  induction l1 as [|r l1 IH]; [done|]. simpl. by rewrite IH, append_assoc.
Qed.

Lemma record_in (m : gmap string string) k :
  dom m = list_to_set fieldnames -> k ∈ fieldnames -> exists v, m !! k = Some v.
Proof.
  intros Hdom Hk. apply (elem_of_dom m k). rewrite Hdom.
  by apply elem_of_list_to_set.
Qed.

Lemma record_out (m : gmap string string) k :
  dom m = list_to_set fieldnames -> k ∉ fieldnames -> m !! k = None.
Proof.
  intros Hdom Hk. apply not_elem_of_dom. rewrite Hdom.
  by rewrite elem_of_list_to_set.
Qed.

(** A written record comes back from [DictReader] as it was. *)
Lemma dict_row_record (m : gmap string string) :
  dom m = list_to_set fieldnames ->
  dict_row fieldnames (record_values m) = as_row m.
Proof.
  intros Hdom. unfold dict_row, as_row. simpl. f_equal.
  apply map_eq. intros k. rewrite lookup_fmap.
  unfold dict_zip, record_values, fieldnames. simpl.
  repeat (rewrite lookup_insert; destruct (decide (_ = k)) as [<-|?];
          [match goal with
           | |- context [m !! ?key] =>
               destruct (record_in m key Hdom) as [v ->];
               [unfold fieldnames; repeat constructor|reflexivity]
           end|]).
  rewrite lookup_empty, record_out; [done|done|].
  unfold fieldnames. intros Hin.
  repeat (apply elem_of_cons in Hin as [->|Hin]; [congruence|]).
  inversion Hin.
Qed.

Lemma foldl_zip_keep names values (d : gmap string cell) k :
  k ∉ names ->
  foldl (fun d kv => <[fst kv := Some (snd kv)]> d) d (zip names values) !! k
  = d !! k.
Proof.
  revert values d. induction names as [|n names IH]; intros [|v values] d Hk;
    simpl; try done.
  rewrite IH by set_solver. rewrite lookup_insert_ne; [done|]. set_solver.
Qed.

Lemma dict_row_first n names v values :
  n ∉ names -> cols (dict_row (n :: names) (v :: values)) !! n = Some (Some v).
Proof.
  intros Hn. unfold dict_row.
  destruct (length (n :: names) <? length (v :: values))%nat; simpl.
  - unfold dict_zip. simpl. by rewrite foldl_zip_keep, lookup_insert_eq.
  - rewrite fromkeys_None_lookup, decide_False.
    + unfold dict_zip. simpl. by rewrite foldl_zip_keep, lookup_insert_eq.
    + intros Hin. by apply subseteq_drop in Hin.
Qed.

(** A row read under the extractor's header carries the columns the
    comparison reads. *)
Lemma ledger_row_has_columns values :
  values <> [] -> has_columns (dict_row fieldnames values) = true.
Proof.
  intros Hne. unfold has_columns. apply andb_true_intro. split.
  - destruct values as [|v values]; [done|]. unfold fieldnames.
    rewrite dict_row_first; [done|]. intros Hin.
    repeat (apply elem_of_cons in Hin as [Heq|Hin]; [discriminate Heq|]).
    inversion Hin.
  - apply forallb_forall. intros k Hk.
    destruct (dict_row_columns fieldnames values k) as [c ->]; [|done].
    apply list_elem_of_In in Hk. revert Hk.
    unfold compared_columns, CompareBaselines.metrics, fieldnames.
    simpl app. intros Hk.
    repeat (apply elem_of_cons in Hk as [->|Hk]; [repeat constructor|]).
    inversion Hk.
Qed.

(** Loading a store the extractor wrote. *)
Lemma load_written_ledger files path rows :
  files !! path = Some (write_rows (fieldnames :: rows)) ->
  Forall clean_row rows ->
  CompareBaselines.load_baselines files path
  = Ok (DictReader (fieldnames :: rows)).
Proof.
  intros Hf Hrows. unfold CompareBaselines.load_baselines, open_r.
  rewrite Hf. cbn [bind]. rewrite reader_write_rows; [reflexivity|].
  constructor; [apply fieldnames_clean|exact Hrows].
Qed.

Lemma loaded_ledger_has_columns rows :
  forallb has_columns (DictReader (fieldnames :: rows)) = true.
Proof.
  apply forallb_forall. intros r Hr. cbn [DictReader] in Hr.
  apply in_map_iff in Hr as (values & <- & Hv).
  apply ledger_row_has_columns. intros ->.
  apply list_elem_of_In, list_elem_of_filter in Hv as [Hv _]. exact Hv.
Qed.

Lemma filter_record_values (m : gmap string string) :
  filter (fun r => negb (is_nil r)) [record_values m] = [record_values m].
Proof. reflexivity. Qed.

(** Appending a record to a store written by the extractor and loading the
    store: the records it held, then the record appended, provided no field
    holds a carriage return or exceeds the field size limit. *)
Lemma append_then_load h files input out cfg cpu ram raw rows :
  system_info h = Ok (cpu, ram) -> files !! input = Some raw ->
  files !! out = Some (write_rows (fieldnames :: rows)) ->
  Forall clean_row rows ->
  clean_row (record_values (run_record h cpu ram cfg raw)) ->
  exists files',
    extract_metrics h files input out cfg = Ok files'
    /\ CompareBaselines.load_baselines files out
       = Ok (DictReader (fieldnames :: rows))
    /\ CompareBaselines.load_baselines files' out
       = Ok (DictReader (fieldnames :: rows)
             ++ [as_row (run_record h cpu ram cfg raw)]).
Proof.
  intros Hi Hf Hout Hrows Hrec. eexists. split; [|split].
  - by apply (extract_metrics_ok h files input out cfg cpu ram raw).
  - by apply load_written_ledger.
  - unfold CompareBaselines.load_baselines, open_r.
    rewrite lookup_insert_eq, Hout. cbn [bind].
    set (m := run_record h cpu ram cfg raw) in *.
    assert (write_rows (fieldnames :: rows) +:+ writerow (record_values m)
            = write_rows (fieldnames :: rows ++ [record_values m])) as ->.
    { rewrite (app_comm_cons rows [record_values m] fieldnames).
      rewrite write_rows_app. cbn [write_rows]. by rewrite append_nil_r. }
    rewrite reader_write_rows.
    + cbn [bind DictReader]. rewrite filter_app, map_app.
      rewrite filter_record_values. cbn [map].
      rewrite dict_row_record; [reflexivity|apply run_record_dom].
    + constructor; [apply fieldnames_clean|].
      apply Forall_app. split; [exact Hrows|]. by constructor.
Qed.

(** The row of a record, field by field. *)
Lemma record_values_run_record h cpu ram cfg raw :
  record_values (run_record h cpu ram cfg raw)
  = [ today h; get_git_commit_hash h; cpu; ram;
      platform_system h +:+ " " +:+ platform_release h; cfg ]
    ++ map (fun np => found (snd np) (universal_newlines raw)) patterns.
Proof. reflexivity. Qed.

(** No record's row is the header row: its FileOpenTime field is a run of
    digits or N/A. *)
Lemma record_row_not_header h cpu ram cfg raw :
  record_values (run_record h cpu ram cfg raw) <> fieldnames.
Proof.
  rewrite record_values_run_record. intros H.
  apply (f_equal (fun l => l !! 6%nat)) in H. cbn in H.
  injection H as H.
  destruct (found_metric_value
              {| Re.before := "File open time: "; Re.after := "ms" |}
              (universal_newlines raw)) as [Hna|[_ Hd]];
    rewrite H in *; discriminate.
Qed.

(** C7: two runs of [extract_metrics] on a store that does not exist yet
    leave it holding the header row, then the row of the first run's record,
    then the row of the second run's record, and nothing else. Each of the
    two rows is the record's thirteen fields (date, commit, CPU, RAM, OS,
    build label and the seven metric values), and neither is the header
    row. When the two rows have no carriage return and no over-long field,
    the csv reader finds in the store exactly the header and these two
    rows, and [load_baselines] gives back the two records. A run that finds
    the store already there, whatever it holds, adds the row of its record
    after what was there: the header is written by the run that creates the
    store and by no other. *)
Theorem header_written_once
  (h1 h2 : host) (files : fs) (in1 in2 out cfg1 cfg2 : string)
  (cpu1 ram1 raw1 cpu2 ram2 raw2 : string) :
  files !! out = None ->
  system_info h1 = Ok (cpu1, ram1) -> files !! in1 = Some raw1 ->
  system_info h2 = Ok (cpu2, ram2) ->
  let rec1 := run_record h1 cpu1 ram1 cfg1 raw1 in
  let row1 := record_values rec1 in
  (in2 <> out /\ files !! in2 = Some raw2
   \/ in2 = out /\ raw2 = writerow fieldnames +:+ writerow row1) ->
  let rec2 := run_record h2 cpu2 ram2 cfg2 raw2 in
  let row2 := record_values rec2 in
  (exists files1 files2,
     extract_metrics h1 files in1 out cfg1 = Ok files1
     /\ extract_metrics h2 files1 in2 out cfg2 = Ok files2
     /\ files1 !! out = Some (writerow fieldnames +:+ writerow row1)
     /\ files2 !! out
        = Some (writerow fieldnames +:+ writerow row1 +:+ writerow row2)
     /\ row1
        = [ today h1; get_git_commit_hash h1; cpu1; ram1;
            platform_system h1 +:+ " " +:+ platform_release h1; cfg1 ]
          ++ map (fun np => found (snd np) (universal_newlines raw1)) patterns
     /\ row2
        = [ today h2; get_git_commit_hash h2; cpu2; ram2;
            platform_system h2 +:+ " " +:+ platform_release h2; cfg2 ]
          ++ map (fun np => found (snd np) (universal_newlines raw2)) patterns
     /\ row1 <> fieldnames /\ row2 <> fieldnames
     /\ (clean_row row1 -> clean_row row2 ->
         reader parse_reset
           (text_lines
              (writerow fieldnames +:+ writerow row1 +:+ writerow row2))
         = Ok [fieldnames; row1; row2]
         /\ CompareBaselines.load_baselines files2 out
            = Ok [as_row rec1; as_row rec2])
     /\ forall path, path <> out -> files2 !! path = files !! path)
  /\ (forall h store input cfg old store',
        store !! out = Some old ->
        extract_metrics h store input out cfg = Ok store' ->
        exists cpu ram raw,
          system_info h = Ok (cpu, ram) /\ store !! input = Some raw
          /\ store' !! out
             = Some (old +:+ writerow
                               (record_values (run_record h cpu ram cfg raw)))
          /\ record_values (run_record h cpu ram cfg raw) <> fieldnames
          /\ forall path, path <> out -> store' !! path = store !! path).
Proof.
  intros Hout Hi1 Hin1 Hi2 rec1 row1 Hin2 rec2 row2. split.
  - pose proof (extract_metrics_ok h1 files in1 out cfg1 cpu1 ram1 raw1 Hi1 Hin1)
      as H1.
    rewrite Hout in H1. fold rec1 row1 in H1.
    set (files1 := <[out := _]> files) in H1.
    assert (Hraw2 : files1 !! in2 = Some raw2).
    { subst files1. destruct Hin2 as [[Hne Hf]|[-> ->]].
      - by rewrite lookup_insert_ne.
      - by rewrite lookup_insert_eq. }
    pose proof (extract_metrics_ok h2 files1 in2 out cfg2 cpu2 ram2 raw2 Hi2 Hraw2)
      as H2.
    assert (Hf1 : files1 !! out
                  = Some (writerow fieldnames +:+ writerow row1))
      by (subst files1; by rewrite lookup_insert_eq).
    rewrite Hf1 in H2. fold rec2 row2 in H2.
    set (files2 := <[out := _]> files1) in H2.
    assert (Hf2 : files2 !! out
                  = Some (writerow fieldnames +:+ writerow row1
                          +:+ writerow row2))
      by (subst files2; by rewrite lookup_insert_eq, append_assoc).
    exists files1, files2.
    split; [exact H1|]. split; [exact H2|]. split; [exact Hf1|].
    split; [exact Hf2|].
    split; [apply record_values_run_record|].
    split; [apply record_values_run_record|].
    split; [apply record_row_not_header|].
    split; [apply record_row_not_header|].
    split.
    { intros Hc1 Hc2.
      assert (Hclean : Forall clean_row [fieldnames; row1; row2]).
      { apply Forall_cons. split; [apply fieldnames_clean|].
        apply Forall_cons. split; [exact Hc1|].
        apply Forall_cons. split; [exact Hc2|]. apply Forall_nil_2. }
      assert (Htext : writerow fieldnames +:+ writerow row1 +:+ writerow row2
                      = write_rows [fieldnames; row1; row2]).
      { cbn [write_rows]. by rewrite append_nil_r. }
      split.
      - rewrite Htext. by apply reader_write_rows.
      - rewrite Htext in Hf2.
        rewrite (load_written_ledger files2 out [row1; row2] Hf2)
          by (by apply Forall_cons_1 in Hclean as [_ ?]).
        cbn [DictReader]. unfold row1, row2.
        rewrite !filter_cons_True by done. cbn [filter map].
        rewrite !dict_row_record by apply run_record_dom. done. }
    intros path Hne. subst files1 files2. by rewrite !lookup_insert_ne.
  - intros h store input cfg old store' Hold Hrun.
    destruct (extract_metrics_inv _ _ _ _ _ _ Hrun) as (cpu & ram & raw & Hi & Hf).
    rewrite (extract_metrics_ok h store input out cfg cpu ram raw Hi Hf) in Hrun.
    rewrite Hold in Hrun. injection Hrun as <-.
    exists cpu, ram, raw. split; [done|]. split; [done|].
    split; [by rewrite lookup_insert_eq|].
    split; [apply record_row_not_header|].
    intros path Hne. by rewrite lookup_insert_ne.
Qed.

Lemma header_written_once_witness :
  exists files1 files2,
    extract_metrics example_host example_files "run.txt" "ledger.csv" "Release"
    = Ok files1
    /\ extract_metrics example_host files1 "run.txt" "ledger.csv" "Debug"
       = Ok files2
    /\ files2 !! "ledger.csv"
       = Some (writerow fieldnames
               +:+ writerow [ "2024-03-01"; "9f8e7d"; "cpu"; "32GB"; "Linux 6.1";
                              "Release"; "42"; "N/A"; "N/A"; "N/A"; "N/A";
                              "N/A"; "N/A" ]
               +:+ writerow [ "2024-03-01"; "9f8e7d"; "cpu"; "32GB"; "Linux 6.1";
                              "Debug"; "42"; "N/A"; "N/A"; "N/A"; "N/A";
                              "N/A"; "N/A" ]).
Proof.
  assert (Hout : example_files !! "ledger.csv" = None)
    by (vm_compute; reflexivity).
  assert (Hin : example_files !! "run.txt" = Some "File open time: 42ms")
    by (vm_compute; reflexivity).
  assert (Hhost : system_info example_host = Ok ("cpu", "32GB"))
    by reflexivity.
  pose proof (header_written_once example_host example_host example_files
                     "run.txt" "run.txt" "ledger.csv" "Release" "Debug"
                     "cpu" "32GB" "File open time: 42ms"
                     "cpu" "32GB" "File open time: 42ms"
                     Hout Hhost Hin Hhost) as H.
  cbv zeta in H.
  destruct H as [H _]; [left; split; [discriminate|exact Hin]|].
  destruct H as (files1 & files2 & H1 & H2 & _ & H3 & _).
  exists files1, files2. split; [exact H1|]. split; [exact H2|].
  rewrite H3. vm_compute. reflexivity.
Defined.


(** C8 at a build label that holds a carriage return. The record is
    appended to a store that exists, with the label as given; read back,
    the store has two records and the last one has a line feed where the
    carriage return was, every other field being as written. *)
Theorem carriage_return_is_read_back_as_line_feed :
  bind appended_record (fun m => Ok (m !! "BuildConfig")) = Ok (Some cr_label)
  /\ bind read_back (fun recs => Ok (length recs)) = Ok 2%nat
  /\ bind read_back (fun recs => Ok (field_of_last recs "BuildConfig"))
     = Ok (Some (Some lf_label))
  /\ lf_label <> cr_label
  /\ bind read_back (fun recs =>
       Ok (map (field_of_last recs)
             (filter (fun k => k <> "BuildConfig") fieldnames)))
     = bind appended_record (fun m =>
         Ok (map (fun k => Some (m !! k))
               (filter (fun k => k <> "BuildConfig") fieldnames))).
Proof.
  split; [vm_compute; reflexivity|].
  split; [vm_compute; reflexivity|].
  split; [vm_compute; reflexivity|].
  split; [vm_compute; discriminate|].
  vm_compute; reflexivity.
Qed.

End LedgerClaims.

Module CompareExtras.
Import Py PyFacts Csv CompareBaselines Ledger Pipeline ChangeFacts SortFacts
  CompareFacts CompareClaims FloatFacts.

Lemma getitem_Ok r k v : getitem r k = Ok v -> column r k = v.
Proof.
  unfold getitem, column. destruct (cols r !! k); [|discriminate].
  by intros [= ->].
Qed.

Lemma change_of_Ok old new v :
  calculate_percentage_change old new = Ok v -> change_of old new = v.
Proof. unfold change_of. by intros ->. Qed.

(** Every dict [build_comparison] returns is the dict of the last two rows. *)
Lemma build_comparison_inv l c :
  build_comparison l = Ok c ->
  exists front previous latest,
    l = front ++ [previous; latest] /\ c = comparison_of previous latest.
Proof.
  unfold build_comparison, last1, last2. intros H.
  destruct (rev l) as [|r [|p rest]] eqn:Hrev; try discriminate.
  exists (rev rest), p, r. split.
  { rewrite <- (rev_involutive l), Hrev. simpl. by rewrite <- app_assoc. }
  cbn [bind] in H.
  repeat match type of H with
         | bind (getitem ?x ?k) _ = _ =>
             let E := fresh "E" in
             destruct (getitem x k) eqn:E; [|discriminate H];
             apply getitem_Ok in E; subst; cbn [bind] in H
         end.
  cbn [compare_metrics metrics] in H.
  repeat match type of H with
         | bind (getitem ?x ?k) _ = _ =>
             let E := fresh "E" in
             destruct (getitem x k) eqn:E; [|discriminate H];
             apply getitem_Ok in E; subst; cbn [bind] in H
         | bind (calculate_percentage_change ?a ?b) _ = _ =>
             let E := fresh "E" in
             destruct (calculate_percentage_change a b) eqn:E; [|discriminate H];
             apply change_of_Ok in E; subst; cbn [bind compare_metrics] in H
         end.
  by injection H as <-.
Qed.

Lemma compare_baselines_inv l out l' c :
  compare_baselines l = Returns out l' (Some c) ->
  exists front previous latest,
    l' = front ++ [previous; latest] /\ c = comparison_of previous latest.
Proof.
  unfold compare_baselines. destruct (length l <? 2)%nat; [discriminate|].
  destruct (list_sort _ l) as [sorted|e]; [|discriminate].
  destruct (build_comparison sorted) as [c'|e] eqn:Hb; [|discriminate].
  intros [= _ <- <-]. by apply build_comparison_inv.
Qed.

(** X1: whatever rows [compare_baselines] was given, a comparison it
    returns is always rendered: [generate_markdown_report] finds its
    thirteen keys and raises nothing. *)
Theorem report_of_comparison_never_fails
  (float_repr : float -> string) (baselines l' : list Csv.row)
  (out : list string) (comparison : gmap string pyval) :
  compare_baselines baselines = Returns out l' (Some comparison) ->
  exists report, generate_markdown_report float_repr comparison = Ok report.
Proof.
  intros (front & p & r & _ & ->)%compare_baselines_inv.
  apply generate_markdown_report_ok.
Qed.

Lemma report_of_comparison_never_fails_witness :
  exists report,
    generate_markdown_report (fun _ => EmptyString)
      (comparison_of row_jan row_feb) = Ok report.
Proof.
  apply (report_of_comparison_never_fails (fun _ => EmptyString)
           [row_feb; row_jan] [row_jan; row_feb] []).
  apply (compare_baselines_sorted [row_feb; row_jan] [] row_jan row_feb);
    vm_compute; reflexivity.
Defined.


Lemma mapM_getitem_missing (l : list Csv.row) :
  (exists r, r ∈ l /\ cols r !! "Date" = None) ->
  mapM (fun x => getitem x "Date") l = Raise (KeyError "Date").
Proof.
  induction l as [|x l IH]; intros (r & Hr & Hd).
  - inversion Hr.
  - simpl. unfold getitem at 1. destruct (cols x !! "Date") as [v|] eqn:Hx.
    + simpl. rewrite IH; [done|].
      apply elem_of_cons in Hr as [->|Hr]; [congruence|eauto].
    + done.
Qed.

Lemma mapM_getitem_present (l : list Csv.row) :
  (forall r, r ∈ l -> is_Some (cols r !! "Date")) ->
  mapM (fun x => getitem x "Date") l
  = Ok (map (fun r => column r "Date") l).
Proof.
  induction l as [|x l IH]; intros H; [done|]. cbn [mapM map].
  rewrite IH by (intros r Hr; apply H; by apply list_elem_of_further).
  destruct (H x (list_elem_of_here _ _)) as [v Hv].
  unfold getitem, column, cell in *. rewrite Hv. reflexivity.
Qed.

Lemma existsb_None_date (l : list Csv.row) :
  (exists r, r ∈ l /\ cols r !! "Date" = Some None) ->
  existsb is_None (map (fun r => column r "Date") l) = true.
Proof.
  intros (r & Hr & Hd). apply existsb_exists. exists None. split; [|done].
  apply in_map_iff. exists r. split.
  - unfold column. by rewrite Hd.
  - by apply list_elem_of_In.
Qed.

(** X2: with two or more rows, a row that has no [Date] column makes
    [compare_baselines] raise [KeyError] for that key, and when every row
    has the column but one of them holds [None] in it (a row that stopped
    short of the column) the sort raises [TypeError]; in both cases no
    comparison is returned. *)
Theorem compare_needs_dates (baselines : list Csv.row) :
  (2 <= length baselines)%nat ->
  ((exists r, r ∈ baselines /\ cols r !! "Date" = None) ->
   compare_baselines baselines = Raises (KeyError "Date"))
  /\ ((forall r, r ∈ baselines -> is_Some (cols r !! "Date")) ->
      (exists r, r ∈ baselines /\ cols r !! "Date" = Some None) ->
      compare_baselines baselines = Raises TypeError).
Proof.
  intros Hlen.
  assert (Hlt : (length baselines <? 2)%nat = false)
    by (apply Nat.ltb_ge; lia).
  assert (Hle : (2 <=? length baselines)%nat = true)
    by (apply Nat.leb_le; lia).
  split.
  - intros Hmiss. unfold compare_baselines, list_sort. rewrite Hlt.
    by rewrite mapM_getitem_missing.
  - intros Hall Hnone. unfold compare_baselines, list_sort. rewrite Hlt.
    rewrite mapM_getitem_present by done. cbn [bind].
    by rewrite Hle, existsb_None_date.
Qed.

Lemma compare_needs_dates_witness :
  compare_baselines
    [dict_row ["Date"; "FileOpenTime"] ["2024-01-01"; "5"];
     dict_row ["FileOpenTime"] ["7"]]
  = Raises (KeyError "Date")
  /\ compare_baselines
       [dict_row ["FileOpenTime"; "Date"] ["5"; "2024-01-01"];
        dict_row ["FileOpenTime"; "Date"] ["7"]]
     = Raises TypeError.
Proof.
  split.
  - apply (proj1 (compare_needs_dates
                    [dict_row ["Date"; "FileOpenTime"] ["2024-01-01"; "5"];
                     dict_row ["FileOpenTime"] ["7"]] (le_n 2))).
    eexists. split; [apply list_elem_of_further, list_elem_of_here|].
    vm_compute. reflexivity.
  - apply (proj2 (compare_needs_dates
                    [dict_row ["FileOpenTime"; "Date"] ["5"; "2024-01-01"];
                     dict_row ["FileOpenTime"; "Date"] ["7"]] (le_n 2))).
    + intros r Hr.
      repeat (apply elem_of_cons in Hr as [->|Hr];
              [vm_compute; by eexists|]).
      inversion Hr.
    + eexists. split; [apply list_elem_of_further, list_elem_of_here|].
      vm_compute. reflexivity.
Defined.

Lemma sort_by_date_has_columns l :
  forallb has_columns l = true -> forallb has_columns (sort_by_date l) = true.
Proof.
  intros H. apply forallb_forall. intros r Hr.
  apply (has_columns_sorted l); [done|]. by apply list_elem_of_In.
Qed.

Lemma sort_by_date_idem l : sort_by_date (sort_by_date l) = sort_by_date l.
Proof. apply (stable_sort_id date_of), (stable_sort_sorted date_of). Qed.

(** X3: a second call of [compare_baselines] on the list the first call
    left behind returns the same comparison and leaves the list as it is:
    the in-place sort changes the list at most once. *)
Theorem compare_twice (baselines : list Csv.row) :
  forallb has_columns baselines = true ->
  (2 <= length baselines)%nat ->
  exists sorted comparison,
    compare_baselines baselines = Returns [] sorted (Some comparison)
    /\ compare_baselines sorted = Returns [] sorted (Some comparison).
Proof.
  intros Hc Hlen.
  destruct (compare_baselines_returns baselines Hc Hlen)
    as (front & p & r & Hs & Hr).
  exists (sort_by_date baselines), (comparison_of p r). split; [exact Hr|].
  rewrite (compare_baselines_sorted (sort_by_date baselines) front p r).
  - by rewrite sort_by_date_idem.
  - by apply sort_by_date_has_columns.
  - by rewrite sort_by_date_idem.
Qed.

Lemma compare_twice_witness :
  exists sorted comparison,
    compare_baselines [row_feb; row_jan] = Returns [] sorted (Some comparison)
    /\ compare_baselines sorted = Returns [] sorted (Some comparison).
Proof.
  apply (compare_twice [row_feb; row_jan]); [vm_compute; reflexivity|].
  simpl. lia.
Defined.


Lemma comparison_of_dom p r :
  dom (comparison_of p r) = list_to_set comparison_keys.
Proof.
  unfold comparison_of, comparison_keys, metrics. cbn [foldl map app].
  rewrite !dom_insert_L, dom_empty_L. cbn [list_to_set]. set_solver.
Qed.

Lemma StronglySorted_app_elem {A} (R : A -> A -> Prop) l1 l2 x y :
  StronglySorted R (l1 ++ l2) -> x ∈ l1 -> y ∈ l2 -> R x y.
Proof.
  induction l1 as [|a l1 IH]; intros Hs Hx Hy; [by inversion Hx|].
  simpl in Hs. apply StronglySorted_inv in Hs as [Hs Ha].
  apply elem_of_cons in Hx as [->|Hx]; [|by apply IH].
  rewrite Forall_forall in Ha. apply Ha. apply elem_of_app. by right.
Qed.

Lemma column_Date r :
  has_columns r = true -> column r "Date" = Some (date_of r).
Proof.
  unfold has_columns, date_of, column. intros [H _]%andb_prop.
  by destruct (mjoin (cols r !! "Date")).
Qed.

(** X4: on two or more rows that carry the compared columns, the
    comparison has exactly thirteen keys, its seven changes are each the
    N/A marker or a float, and the two rows compared are the two of the
    greatest dates: the previous row's date is not after the latest row's,
    and no other row's date is after the previous row's. *)
Theorem comparison_shape (baselines : list Csv.row) :
  forallb has_columns baselines = true ->
  (2 <= length baselines)%nat ->
  exists front previous latest comparison,
    compare_baselines baselines
    = Returns [] (front ++ [previous; latest]) (Some comparison)
    /\ front ++ [previous; latest] ≡ₚ baselines
    /\ dom comparison = list_to_set comparison_keys
    /\ comparison !! "Date" = Some (PStr (date_of latest))
    /\ comparison !! "PreviousDate" = Some (PStr (date_of previous))
    /\ date_le previous latest
    /\ Forall (fun x => date_le x previous) front
    /\ (forall m, m ∈ metrics ->
          comparison !! change_key m = Some NA
          \/ exists x, comparison !! change_key m = Some (PFloat x)).
Proof.
  intros Hc Hlen.
  destruct (compare_baselines_returns baselines Hc Hlen)
    as (front & p & r & Hs & Hr).
  pose proof (stable_sort_sorted date_of baselines) as Hsorted.
  fold (sort_by_date baselines) in Hsorted. rewrite Hs in Hsorted.
  assert (Hp : has_columns p = true).
  { apply (has_columns_sorted baselines); [done|]. rewrite Hs.
    apply elem_of_app. right. apply list_elem_of_here. }
  assert (Hl : has_columns r = true).
  { apply (has_columns_sorted baselines); [done|]. rewrite Hs.
    apply elem_of_app. right. apply list_elem_of_further, list_elem_of_here. }
  exists front, p, r, (comparison_of p r). rewrite <- Hs.
  split; [exact Hr|]. split; [apply stable_sort_Permutation|].
  split; [apply comparison_of_dom|].
  split.
  { change (comparison_of p r !! "Date")
      with (Some (of_cell (column r "Date"))). by rewrite column_Date. }
  split.
  { change (comparison_of p r !! "PreviousDate")
      with (Some (of_cell (column p "Date"))). by rewrite column_Date. }
  split.
  { change (front ++ [p; r]) with (front ++ [p] ++ [r]) in Hsorted.
    rewrite app_assoc in Hsorted.
    apply (StronglySorted_app_elem _ (front ++ [p]) [r]); [done| |].
    - apply elem_of_app. right. apply list_elem_of_here.
    - apply list_elem_of_here. }
  split.
  { apply Forall_forall. intros x Hx.
    apply (StronglySorted_app_elem _ front [p; r]); [done..|].
    apply list_elem_of_here. }
  intros m Hm. rewrite comparison_of_change by done.
  destruct (change_of_cases (column p m) (column r m)) as [-> | [x ->]];
    eauto.
Qed.

Lemma comparison_shape_witness :
  exists front previous latest comparison,
    compare_baselines [row_feb; row_jan; row_feb_rerun]
    = Returns [] (front ++ [previous; latest]) (Some comparison)
    /\ dom comparison = list_to_set comparison_keys
    /\ date_le previous latest.
Proof.
  destruct (comparison_shape [row_feb; row_jan; row_feb_rerun])
    as (front & p & r & c & H1 & _ & H2 & _ & _ & H3 & _);
    [vm_compute; reflexivity | simpl; lia |].
  exists front, p, r, c. repeat split; assumption.
Defined.

(** Subtracting a finite float from itself gives +0.0. *)
Lemma float_sub_self x :
  is_finite_nonzero x = true -> float_sub x x = S754_zero false.
Proof.
  destruct x as [| | |s m e]; try discriminate. intros _.
  unfold float_sub. simpl. by rewrite Z.sub_diag.
Qed.

(** X5: a metric whose previous and latest cells parse to the same finite
    non-zero number has the change zero, with the sign of the number: the
    report shows +0.00% for an unchanged positive measurement (and -0.00%
    for an unchanged negative one). *)
Theorem unchanged_metric (old new : cell) (x : float) (s : bool) :
  float_of_cell old = Ok x -> float_of_cell new = Ok x ->
  is_finite_nonzero x = true -> sign_bit x = Some s ->
  calculate_percentage_change old new = Ok (PFloat (S754_zero s))
  /\ render_change (PFloat (S754_zero s)) = Ok (sign_str s +:+ "0.00%").
Proof.
  intros Ho Hn Hf Hs. split.
  - rewrite (change_numeric old new x x Ho Hn) by (by destruct x).
    unfold percentage. rewrite float_sub_self by done.
    destruct x as [| | |sx m e]; try discriminate.
    injection Hs as <-. by destruct sx.
  - by destruct s.
Qed.

Lemma unchanged_metric_witness :
  calculate_percentage_change (Some "42") (Some "42.0")
  = Ok (PFloat (S754_zero false)).
Proof.
  apply (unchanged_metric (Some "42") (Some "42.0") (float_of_Z 42) false);
    vm_compute; reflexivity.
Defined.

End CompareExtras.

Module MainExtras.
Import Py PyFacts Csv File CompareBaselines Ledger Pipeline ChangeFacts
  SortFacts CompareFacts CompareClaims ReaderFacts LedgerClaims CompareExtras.






Lemma DictReader_length rows :
  length (DictReader (ExtractMetrics.fieldnames :: rows))
  = length (filter (fun r => negb (is_nil r)) rows).
Proof. cbn [DictReader]. by rewrite length_map. Qed.

(** X7: the comparison script run on a ledger the extractor wrote, whose
    fields hold no carriage return and fit the field size limit. With
    fewer than two data rows (a ledger of the header alone included) it
    prints the insufficient-data line, writes nothing and ends normally;
    with two or more it ends normally having written the report and
    nothing else. Blank rows do not count. *)
Theorem compare_main_on_ledger
  (float_repr : float -> string) (prog path : string) (files : fs)
  (rows : list (list string)) :
  files !! path = Some (write_rows (ExtractMetrics.fieldnames :: rows)) ->
  Forall clean_row rows ->
  ((length (filter (fun r => negb (is_nil r)) rows) < 2)%nat ->
   main float_repr [prog; path] files
   = {| run_files := files; run_stdout := [insufficient_data];
        run_exit := Finished |})
  /\ ((2 <= length (filter (fun r => negb (is_nil r)) rows))%nat ->
      exists report,
        main float_repr [prog; path] files
        = {| run_files := <[output_file := report]> files;
             run_stdout := ["Comparison report written to " +:+ output_file];
             run_exit := Finished |}).
Proof.
  intros Hf Hrows.
  pose proof (load_written_ledger files path rows Hf Hrows) as Hload.
  pose proof (loaded_ledger_has_columns rows) as Hcols.
  pose proof (DictReader_length rows) as Hlen.
  set (recs := DictReader (ExtractMetrics.fieldnames :: rows)) in *.
  split; intros Hn; unfold main; rewrite Hload.
  - by rewrite compare_baselines_few by lia.
  - destruct (compare_baselines_returns recs Hcols) as (front & p & r & _ & ->);
      [lia|].
    rewrite bool_decide_eq_false_2 by apply comparison_of_nonempty.
    destruct (generate_markdown_report_ok float_repr p r) as [report ->].
    by exists report.
Qed.

Lemma compare_main_on_ledger_witness :
  main (fun _ => EmptyString) ["compare_baselines.py"; "ledger.csv"]
    {[ "ledger.csv" := write_rows [ExtractMetrics.fieldnames] ]}
  = {| run_files := {[ "ledger.csv" := write_rows [ExtractMetrics.fieldnames] ]};
       run_stdout := [insufficient_data]; run_exit := Finished |}.
Proof.
  apply (proj1 (compare_main_on_ledger (fun _ => EmptyString)
                  "compare_baselines.py" "ledger.csv"
                  {[ "ledger.csv" := write_rows [ExtractMetrics.fieldnames] ]}
                  [] (lookup_singleton_eq _ _) (Forall_nil_2 _))).
  simpl. lia.
Defined.

End MainExtras.

Module ExtractExtras.
Import Py PyFacts Csv File ExtractMetrics Ledger Pipeline ExtractFacts
  AppendFacts ReaderFacts LedgerClaims.

Lemma digits_not_NA g : digits g -> g <> "N/A".
Proof. intros [_ Hd] ->. discriminate Hd. Qed.

(** Digit strings go through [float()] untouched up to the conversion. *)
Lemma rev_app_rev_app s t u :
  String.rev_app (String.rev_app s t) u = String.rev_app t (s +:+ u).
Proof.
  revert t u. induction s as [|c s IH]; intros t u; [done|].
  simpl. by rewrite IH.
Qed.

Lemma rev_rev s : String.rev (String.rev s) = s.
Proof. unfold String.rev. by rewrite rev_app_rev_app, append_nil_r. Qed.

Lemma all_chars_rev_app q s t :
  all_chars q (String.rev_app s t) = all_chars q s && all_chars q t.
Proof.
  revert t. induction s as [|c s IH]; intros t; [done|].
  simpl. rewrite IH. simpl. by destruct (q c), (all_chars q s).
Qed.

Lemma digit_code c : is_digit c = true -> 48 <= code c <= 57.
Proof. unfold is_digit. intros [H1 H2]%andb_prop. lia. Qed.

Lemma digit_not_space c : is_digit c = true -> is_space c = false.
Proof.
  intros H%digit_code. unfold is_space.
  destruct (Z.leb_spec 9 (code c)), (Z.leb_spec (code c) 13),
    (Z.eqb_spec (code c) 32); simpl; try done; lia.
Qed.

Lemma digit_space_to_ascii c : is_digit c = true -> space_to_ascii c = c.
Proof.
  intros H%digit_code. unfold space_to_ascii.
  destruct (Z.eqb_spec (code c) 133), (Z.eqb_spec (code c) 160);
    simpl; try done; lia.
Qed.

Lemma digit_not_char c (c0 : ascii) :
  is_digit c = true -> (code c0 < 48 \/ 57 < code c0) -> Ascii.eqb c c0 = false.
Proof.
  intros H%digit_code Hc0. destruct (Ascii.eqb_spec c c0) as [->|]; [lia|done].
Qed.

Lemma digits_drop_while s :
  all_chars is_digit s = true -> drop_while is_space s = s.
Proof.
  destruct s as [|c s]; [done|]. simpl. intros [Hc _]%andb_prop.
  by rewrite digit_not_space.
Qed.

Lemma digits_strip s : all_chars is_digit s = true -> strip s = s.
Proof.
  intros H. unfold strip. rewrite (digits_drop_while s H).
  rewrite digits_drop_while; [apply rev_rev|].
  unfold String.rev. by rewrite all_chars_rev_app, H.
Qed.

Lemma digits_map_space s :
  all_chars is_digit s = true -> map_chars space_to_ascii s = s.
Proof.
  induction s as [|c s IH]; [done|]. simpl. intros [Hc Hs]%andb_prop.
  by rewrite digit_space_to_ascii, IH.
Qed.

Lemma digits_no_underscore s :
  all_chars is_digit s = true ->
  all_chars (fun c => negb (Ascii.eqb c "_")) s = true.
Proof.
  induction s as [|c s IH]; [done|]. simpl. intros [Hc Hs]%andb_prop.
  rewrite (digit_not_char c "_" Hc), IH; [done..|]. right. by vm_compute.
Qed.

Lemma digits_span s :
  all_chars is_digit s = true -> span_digits s = (s, EmptyString).
Proof.
  induction s as [|c s IH]; [done|]. simpl. intros [Hc Hs]%andb_prop.
  by rewrite Hc, IH.
Qed.

Lemma digits_split_sign c s :
  is_digit c = true -> split_sign (String c s) = (false, String c s).
Proof.
  intros Hc.
  destruct c as [[] [] [] [] [] [] [] []]; try discriminate Hc; reflexivity.
Qed.

Lemma digits_parse_float g :
  digits g ->
  parse_float g = Some (float_of_decimal false (digits_value 0 g) 0).
Proof.
  intros [Hne Hd]. destruct g as [|c g]; [done|].
  pose proof Hd as Hd'. simpl in Hd'. apply andb_prop in Hd' as [Hc _].
  unfold parse_float. rewrite (digits_split_sign c g Hc).
  rewrite (digits_span _ Hd). cbn [parse_exponent String.length Z.of_nat].
  by rewrite append_nil_r.
Qed.

Lemma digits_float_of_string g :
  digits g ->
  float_of_string g = Ok (float_of_decimal false (digits_value 0 g) 0).
Proof.
  intros Hg. pose proof Hg as [Hne Hd]. unfold float_of_string.
  rewrite (digits_map_space g Hd), (digits_no_underscore g Hd).
  rewrite (digits_strip g Hd). destruct g as [|c g]; [done|].
  by rewrite (digits_parse_float _ Hg).
Qed.

Lemma digits_value_nonneg g acc :
  0 <= acc -> all_chars is_digit g = true -> 0 <= digits_value acc g.
Proof.
  revert acc. induction g as [|c g IH]; simpl; intros acc Hacc; [done|].
  intros [Hc Hg]%andb_prop. apply IH; [|done].
  apply digit_code in Hc. unfold digit_val. lia.
Qed.

Lemma float_of_decimal_sign d :
  0 <= d -> sign_bit (float_of_decimal false d 0) = Some false.
Proof.
  intros Hd. unfold float_of_decimal. destruct d as [|p|p]; [done| |lia].
  cbn [Z.leb Z.compare]. rewrite Z.pow_0_r, Z.mul_1_r. simpl.
  apply FloatFacts.binary_round_sign.
Qed.

(** X8: the values the extractor writes and the comparison reads. The
    marker N/A is not a number for [float()], a run of digits always is,
    and it parses to a float that is not negative; so the change between
    two extracted values is N/A when either is the marker or the previous
    one is a run of zeros, and otherwise, unless the previous value is too
    small to see, it is the percentage of the two floats. *)
Theorem extracted_values_compare (old new : string) :
  metric_value old -> metric_value new ->
  (old = "N/A" \/ new = "N/A" \/ digits_value 0 old = 0 ->
   CompareBaselines.calculate_percentage_change (Some old) (Some new)
   = Ok CompareBaselines.NA)
  /\ (old <> "N/A" -> new <> "N/A" ->
      exists x y,
        float_of_string old = Ok x /\ float_of_string new = Ok y
        /\ sign_bit x = Some false /\ sign_bit y = Some false
        /\ CompareBaselines.calculate_percentage_change (Some old) (Some new)
           = Ok (if is_zero x then CompareBaselines.NA
                 else CompareBaselines.PFloat (percentage x y))).
Proof.
  intros Ho Hn.
  assert (Hparse : forall v, metric_value v ->
            (v = "N/A" /\ float_of_cell (Some v) = Raise ValueError)
            \/ (v <> "N/A" /\ digits v
                /\ float_of_cell (Some v)
                   = Ok (float_of_decimal false (digits_value 0 v) 0)
                /\ sign_bit (float_of_decimal false (digits_value 0 v) 0)
                   = Some false)).
  { intros v [->|Hv]; [left; by split|]. right.
    split; [by apply digits_not_NA|]. split; [done|].
    split; [by apply digits_float_of_string|].
    apply float_of_decimal_sign, digits_value_nonneg; [done|apply Hv]. }
  destruct (Hparse old Ho) as [[-> Eo]|(No & Do & Eo & So)];
    destruct (Hparse new Hn) as [[-> En]|(Nn & Dn & En & Sn)].
  - split; [|done]. intros _. by eapply ChangeFacts.change_not_numeric_old.
  - split; [|done]. intros _. by eapply ChangeFacts.change_not_numeric_old.
  - split; [|done]. intros _. by eapply ChangeFacts.change_not_numeric_new.
  - split.
    + intros [?|[?|Hz]]; [done..|].
      eapply ChangeFacts.change_zero; [exact Eo|]. by rewrite Hz.
    + intros _ _. eexists _, _.
      split; [exact Eo|]. split; [exact En|]. split; [exact So|].
      split; [exact Sn|].
      destruct (is_zero (float_of_decimal false (digits_value 0 old) 0))
        eqn:Hz.
      * by eapply ChangeFacts.change_zero.
      * by eapply ChangeFacts.change_numeric.
Qed.

Lemma extracted_values_compare_witness :
  CompareBaselines.calculate_percentage_change (Some "000") (Some "17")
  = Ok CompareBaselines.NA.
Proof.
  assert (Ho : metric_value "000").
  { right. split; [discriminate|reflexivity]. }
  assert (Hn : metric_value "17").
  { right. split; [discriminate|reflexivity]. }
  destruct (extracted_values_compare "000" "17" Ho Hn) as [H _].
  apply H. right. right. reflexivity.
Defined.

End ExtractExtras.

Module HistoryExtras.
Import Py PyFacts Csv File ExtractMetrics Ledger Pipeline ExtractFacts
  AppendFacts ReaderFacts LedgerClaims SortFacts CompareFacts CompareClaims.


Lemma record_of_inv files r m :
  record_of files r = Some m ->
  exists cpu ram raw,
    system_info (on_host r) = Ok (cpu, ram)
    /\ files !! input_file r = Some raw
    /\ m = run_record (on_host r) cpu ram (build_config r) raw.
Proof.
  unfold record_of.
  destruct (system_info (on_host r)) as [[cpu ram]|e]; [|discriminate].
  destruct (files !! input_file r) as [raw|]; [|discriminate].
  intros [= <-]. by exists cpu, ram, raw.
Qed.

Lemma record_of_dom files r m :
  record_of files r = Some m -> dom m = list_to_set fieldnames.
Proof.
  intros (cpu & ram & raw & _ & _ & ->)%record_of_inv. apply run_record_dom.
Qed.

Lemma record_of_insert files out text r :
  input_file r <> out ->
  record_of (<[out := text]> files) r = record_of files r.
Proof.
  intros Hne. unfold record_of. by rewrite lookup_insert_ne.
Qed.

Lemma extract_metrics_record files out r m :
  record_of files r = Some m ->
  extract_metrics (on_host r) files (input_file r) out (build_config r)
  = Ok (<[out := default (writerow fieldnames) (files !! out)
                 +:+ writerow (record_values m)]> files).
Proof.
  intros (cpu & ram & raw & Hi & Hf & ->)%record_of_inv.
  rewrite (extract_metrics_ok _ files _ out _ cpu ram raw Hi Hf).
  by destruct (files !! out).
Qed.

(** Runs on a store that exists: each adds its row at the end. *)
Lemma extract_all_on_store files out runs recs rows :
  files !! out = Some (write_rows (fieldnames :: rows)) ->
  Forall2 (fun r m => record_of files r = Some m /\ input_file r <> out)
    runs recs ->
  extract_all files out runs
  = Ok (<[out := write_rows (fieldnames :: rows ++ map record_values recs)]>
          files).
Proof.
  intros Hout H. revert files rows Hout H.
  revert recs. induction runs as [|r runs IH]; intros recs files rows Hout H.
  - apply Forall2_nil_inv_l in H as ->. cbn [extract_all map].
    rewrite app_nil_r. by rewrite insert_id.
  - apply Forall2_cons_inv_l in H as (m & recs' & [Hm Hne] & H & ->).
    cbn [extract_all]. rewrite (extract_metrics_record files out r m Hm).
    rewrite Hout. cbn [bind default].
    rewrite (IH recs' _ (rows ++ [record_values m])).
    + rewrite insert_insert_eq. cbn [map].
      by rewrite <- app_assoc.
    + rewrite lookup_insert_eq. f_equal.
      rewrite (app_comm_cons rows [record_values m] fieldnames).
      rewrite write_rows_app. cbn [write_rows]. by rewrite append_nil_r.
    + eapply Forall2_impl; [exact H|]. intros r' m' [Hm' Hne'].
      split; [|done]. by rewrite record_of_insert.
Qed.

(** Runs on a store that may be absent: the first run creates it. *)
Lemma extract_all_fresh files out r runs m recs :
  files !! out = None ->
  Forall2 (fun r m => record_of files r = Some m /\ input_file r <> out)
    (r :: runs) (m :: recs) ->
  extract_all files out (r :: runs)
  = Ok (<[out := write_rows (fieldnames :: map record_values (m :: recs))]>
          files).
Proof.
  intros Hout H. apply Forall2_cons_1 in H as [[Hm Hne] H].
  cbn [extract_all]. rewrite (extract_metrics_record files out r m Hm).
  rewrite Hout. cbn [bind default].
  rewrite (extract_all_on_store _ out runs recs [record_values m]).
  - by rewrite insert_insert_eq.
  - rewrite lookup_insert_eq. cbn [write_rows]. by rewrite append_nil_r.
  - eapply Forall2_impl; [exact H|]. intros r' m' [Hm' Hne'].
    split; [|done]. by rewrite record_of_insert.
Qed.

Lemma DictReader_records rows (recs : list (gmap string string)) :
  Forall (fun m => dom m = list_to_set fieldnames) recs ->
  DictReader (fieldnames :: rows ++ map record_values recs)
  = DictReader (fieldnames :: rows) ++ map as_row recs.
Proof.
  intros Hdom. cbn [DictReader]. rewrite filter_app, map_app. f_equal.
  induction Hdom as [|m recs Hm _ IH]; [done|].
  cbn [map]. rewrite filter_cons_True by done. cbn [map].
  by rewrite IH, dict_row_record.
Qed.

Lemma load_history files out rows (recs : list (gmap string string)) :
  files !! out
  = Some (write_rows (fieldnames :: rows ++ map record_values recs)) ->
  Forall clean_row rows ->
  Forall (fun m => clean_row (record_values m)) recs ->
  Forall (fun m => dom m = list_to_set fieldnames) recs ->
  CompareBaselines.load_baselines files out
  = Ok (DictReader (fieldnames :: rows) ++ map as_row recs).
Proof.
  intros Hout Hrows Hrecs Hdom.
  rewrite (load_written_ledger files out _ Hout).
  - by rewrite DictReader_records.
  - apply Forall_app. split; [done|]. by apply Forall_fmap.
Qed.

Lemma records_dom files out runs recs :
  Forall2 (fun r m => record_of files r = Some m /\ input_file r <> out)
    runs recs ->
  Forall (fun m => dom m = list_to_set fieldnames) recs.
Proof.
  induction 1 as [|r m runs recs [Hm _] _ IH]; constructor; [|done].
  by eapply record_of_dom.
Qed.

(** X10: the store as a history. After any number of runs of
    [extract_metrics] whose inputs are other files than the store, and
    whose records hold no carriage return and no over-long field,
    [load_baselines] gives back the records of the runs, in the order of
    the runs and with every field as it was written: after those the store
    already held when it was a ledger of clean rows, and alone when the
    store was absent and there was at least one run. No other file has
    changed. *)
Theorem runs_then_load
  (files : fs) (out : string) (runs : list extraction)
  (recs : list (gmap string string)) (rows : list (list string)) :
  Forall2 (fun r m => record_of files r = Some m /\ input_file r <> out)
    runs recs ->
  Forall (fun m => clean_row (record_values m)) recs ->
  (files !! out = Some (write_rows (fieldnames :: rows)) ->
   Forall clean_row rows ->
   exists files',
     extract_all files out runs = Ok files'
     /\ CompareBaselines.load_baselines files' out
        = Ok (DictReader (fieldnames :: rows) ++ map as_row recs)
     /\ forall path, path <> out -> files' !! path = files !! path)
  /\ (files !! out = None -> runs <> [] ->
      exists files',
        extract_all files out runs = Ok files'
        /\ CompareBaselines.load_baselines files' out = Ok (map as_row recs)
        /\ forall path, path <> out -> files' !! path = files !! path).
Proof.
  intros H Hclean. pose proof (records_dom files out runs recs H) as Hdom.
  split.
  - intros Hout Hrows. eexists. split; [by apply extract_all_on_store|].
    split; [|by intros; rewrite lookup_insert_ne].
    apply load_history; [by rewrite lookup_insert_eq|done..].
  - intros Hout Hne. destruct runs as [|r runs]; [done|].
    destruct recs as [|m recs]; [by apply Forall2_cons_nil_inv in H|].
    eexists. split; [by apply extract_all_fresh|].
    split; [|by intros; rewrite lookup_insert_ne].
    apply (load_history _ out [] (m :: recs));
      [by rewrite lookup_insert_eq|done..].
Qed.

Lemma example_record_clean :
  clean_row
    (record_values
       (run_record example_host "cpu" "32GB" "Release" "File open time: 42ms")).
Proof.
  unfold clean_row.
  let l := eval vm_compute in
    (record_values
       (run_record example_host "cpu" "32GB" "Release" "File open time: 42ms"))
  in change (Forall clean_field l).
  repeat (apply Forall_cons; split; [split; [reflexivity|by vm_compute]|]).
  apply Forall_nil_2.
Qed.

Lemma example_record_of :
  record_of example_files
    {| on_host := example_host; input_file := "run.txt";
       build_config := "Release" |}
  = Some (run_record example_host "cpu" "32GB" "Release"
            "File open time: 42ms").
Proof.
  unfold record_of, example_files. cbn [on_host input_file build_config].
  by rewrite lookup_singleton_eq.
Qed.

Lemma runs_then_load_witness :
  exists files',
    extract_all example_files "ledger.csv"
      [ {| on_host := example_host; input_file := "run.txt";
           build_config := "Release" |} ] = Ok files'
    /\ CompareBaselines.load_baselines files' "ledger.csv"
       = Ok [ as_row (run_record example_host "cpu" "32GB" "Release"
                        "File open time: 42ms") ].
Proof.
  assert (Hout : example_files !! "ledger.csv" = None)
    by (vm_compute; reflexivity).
  assert (Hruns :
    Forall2 (fun r m => record_of example_files r = Some m
                        /\ input_file r <> "ledger.csv")
      [ {| on_host := example_host; input_file := "run.txt";
           build_config := "Release" |} ]
      [ run_record example_host "cpu" "32GB" "Release"
          "File open time: 42ms" ]).
  { constructor; [|constructor].
    split; [apply example_record_of|discriminate]. }
  assert (Hclean :
    Forall (fun m => clean_row (record_values m))
      [ run_record example_host "cpu" "32GB" "Release"
          "File open time: 42ms" ]).
  { apply Forall_cons. split; [apply example_record_clean|apply Forall_nil_2]. }
  pose proof (runs_then_load example_files "ledger.csv" _ _ [] Hruns Hclean)
    as [_ H].
  destruct (H Hout) as (files' & H1 & H2 & _); [discriminate|].
  exists files'. split; [exact H1|exact H2].
Defined.

(** The date of a record the extractor built. *)
Lemma date_of_record files r m :
  record_of files r = Some m -> date_of (as_row m) = today (on_host r).
Proof.
  intros (cpu & ram & raw & _ & _ & ->)%record_of_inv.
  unfold date_of, as_row, run_record. cbn [cols].
  rewrite lookup_fmap, extract_patterns_other.
  - reflexivity.
  - unfold patterns. cbn [map fst]. intros Hin.
    repeat (apply elem_of_cons in Hin as [Heq|Hin]; [discriminate Heq|]).
    inversion Hin.
Qed.

(** X11: the two scripts one after the other. On a fresh store, one run of
    the extractor's [main] leaves too little for the comparison, which says
    so and writes nothing; after a second run the comparison writes its
    report. The run taken as the latest is the one with the later date, and
    the second one when the dates are equal: a second run dated before the
    first is reported as the previous one. *)
Theorem two_runs_then_compare
  (float_repr : float -> string) (h1 h2 : host) (files : fs)
  (prog1 prog2 prog3 in1 in2 cfg1 cfg2 : string)
  (m1 m2 : gmap string string) :
  files !! ExtractMain.output_file = None ->
  record_of files
    {| on_host := h1; input_file := in1; build_config := cfg1 |} = Some m1 ->
  record_of files
    {| on_host := h2; input_file := in2; build_config := cfg2 |} = Some m2 ->
  in1 <> ExtractMain.output_file -> in2 <> ExtractMain.output_file ->
  clean_row (record_values m1) -> clean_row (record_values m2) ->
  exists files1 files2 report,
    ExtractMain.main h1 [prog1; in1; cfg1] files
    = {| CompareBaselines.run_files := files1;
         CompareBaselines.run_stdout :=
           ["Metrics extracted and written to " +:+ ExtractMain.output_file];
         CompareBaselines.run_exit := CompareBaselines.Finished |}
    /\ ExtractMain.main h2 [prog2; in2; cfg2] files1
       = {| CompareBaselines.run_files := files2;
            CompareBaselines.run_stdout :=
              ["Metrics extracted and written to " +:+ ExtractMain.output_file];
            CompareBaselines.run_exit := CompareBaselines.Finished |}
    /\ CompareBaselines.main float_repr [prog3; ExtractMain.output_file] files1
       = {| CompareBaselines.run_files := files1;
            CompareBaselines.run_stdout := [insufficient_data];
            CompareBaselines.run_exit := CompareBaselines.Finished |}
    /\ CompareBaselines.generate_markdown_report float_repr
         (if String.ltb (today h2) (today h1)
          then comparison_of (as_row m2) (as_row m1)
          else comparison_of (as_row m1) (as_row m2)) = Ok report
    /\ CompareBaselines.main float_repr [prog3; ExtractMain.output_file] files2
       = {| CompareBaselines.run_files :=
              <[CompareBaselines.output_file := report]> files2;
            CompareBaselines.run_stdout :=
              ["Comparison report written to "
               +:+ CompareBaselines.output_file];
            CompareBaselines.run_exit := CompareBaselines.Finished |}.
Proof.
  intros Hout Hm1 Hm2 Hne1 Hne2 Hc1 Hc2.
  set (out := ExtractMain.output_file) in *.
  set (files1 := <[out := write_rows [fieldnames; record_values m1]]> files).
  set (files2 :=
         <[out := write_rows [fieldnames; record_values m1; record_values m2]]>
           files).
  assert (Hd1 : dom m1 = list_to_set fieldnames) by by eapply record_of_dom.
  assert (Hd2 : dom m2 = list_to_set fieldnames) by by eapply record_of_dom.
  assert (H1 : extract_metrics h1 files in1 out cfg1 = Ok files1).
  { pose proof (extract_metrics_record files out _ m1 Hm1) as E.
    cbn [on_host input_file build_config] in E. rewrite E, Hout.
    unfold files1. cbn [default write_rows]. by rewrite append_nil_r. }
  assert (H2 : extract_metrics h2 files1 in2 out cfg2 = Ok files2).
  { assert (Hm2' : record_of files1
                     {| on_host := h2; input_file := in2;
                        build_config := cfg2 |} = Some m2)
      by (unfold files1; by rewrite record_of_insert).
    pose proof (extract_metrics_record files1 out _ m2 Hm2') as E.
    cbn [on_host input_file build_config] in E. rewrite E.
    unfold files1, files2. rewrite lookup_insert_eq, insert_insert_eq.
    cbn [default from_option id write_rows].
    by rewrite !append_nil_r, !append_assoc. }
  assert (L1 : CompareBaselines.load_baselines files1 out = Ok [as_row m1]).
  { apply (load_history files1 out [] [m1]).
    - unfold files1. by rewrite lookup_insert_eq.
    - constructor.
    - apply Forall_cons. split; [exact Hc1|apply Forall_nil_2].
    - apply Forall_cons. split; [exact Hd1|apply Forall_nil_2]. }
  assert (L2 : CompareBaselines.load_baselines files2 out
               = Ok [as_row m1; as_row m2]).
  { apply (load_history files2 out [] [m1; m2]).
    - unfold files2. by rewrite lookup_insert_eq.
    - constructor.
    - apply Forall_cons. split; [exact Hc1|].
      apply Forall_cons. split; [exact Hc2|]. apply Forall_nil_2.
    - apply Forall_cons. split; [exact Hd1|].
      apply Forall_cons. split; [exact Hd2|]. apply Forall_nil_2. }
  assert (Hcols : forallb has_columns [as_row m1; as_row m2] = true).
  { pose proof (loaded_ledger_has_columns [record_values m1; record_values m2])
      as H.
    change [record_values m1; record_values m2]
      with ([] ++ map record_values [m1; m2]) in H.
    rewrite DictReader_records in H; [exact H|].
    apply Forall_cons. split; [exact Hd1|].
    apply Forall_cons. split; [exact Hd2|]. apply Forall_nil_2. }
  set (p := if String.ltb (today h2) (today h1)
            then as_row m2 else as_row m1).
  set (l := if String.ltb (today h2) (today h1)
            then as_row m1 else as_row m2).
  assert (Hs : sort_by_date [as_row m1; as_row m2] = [] ++ [p; l]).
  { unfold sort_by_date, p, l. cbn [stable_sort insert_left].
    rewrite (date_of_record files _ m1 Hm1), (date_of_record files _ m2 Hm2).
    cbn [on_host]. by destruct (String.ltb (today h2) (today h1)). }
  destruct (generate_markdown_report_ok float_repr p l) as [report Hrep].
  exists files1, files2, report.
  split; [unfold ExtractMain.main; fold out; by rewrite H1|].
  split; [unfold ExtractMain.main; fold out; by rewrite H2|].
  split.
  { unfold CompareBaselines.main. rewrite L1.
    by rewrite compare_baselines_few by (simpl; lia). }
  split.
  { revert Hrep. unfold p, l.
    by destruct (String.ltb (today h2) (today h1)). }
  unfold CompareBaselines.main. rewrite L2.
  rewrite (compare_baselines_sorted _ [] p l Hcols Hs).
  rewrite bool_decide_eq_false_2 by apply comparison_of_nonempty.
  by rewrite Hrep.
Qed.

Lemma two_runs_then_compare_witness :
  exists files1 files2 report,
    ExtractMain.main example_host ["extract"; "run.txt"; "Release"] example_files
    = {| CompareBaselines.run_files := files1;
         CompareBaselines.run_stdout :=
           ["Metrics extracted and written to " +:+ ExtractMain.output_file];
         CompareBaselines.run_exit := CompareBaselines.Finished |}
    /\ ExtractMain.main example_host ["extract"; "run.txt"; "Release"] files1
       = {| CompareBaselines.run_files := files2;
            CompareBaselines.run_stdout :=
              ["Metrics extracted and written to " +:+ ExtractMain.output_file];
            CompareBaselines.run_exit := CompareBaselines.Finished |}
    /\ CompareBaselines.main (fun _ => EmptyString)
         ["compare"; ExtractMain.output_file] files2
       = {| CompareBaselines.run_files :=
              <[CompareBaselines.output_file := report]> files2;
            CompareBaselines.run_stdout :=
              ["Comparison report written to "
               +:+ CompareBaselines.output_file];
            CompareBaselines.run_exit := CompareBaselines.Finished |}.
Proof.
  assert (Hout : example_files !! ExtractMain.output_file = None)
    by (vm_compute; reflexivity).
  pose proof example_record_of as Hrec.
  assert (Hne : "run.txt" <> ExtractMain.output_file)
    by (unfold ExtractMain.output_file; discriminate).
  destruct (two_runs_then_compare (fun _ => EmptyString)
              example_host example_host example_files
              "extract" "extract" "compare" "run.txt" "run.txt"
              "Release" "Release" _ _
              Hout Hrec Hrec Hne Hne
              example_record_clean example_record_clean)
    as (files1 & files2 & report & H1 & H2 & _ & _ & H3).
  exists files1, files2, report.
  split; [exact H1|]. split; [exact H2|exact H3].
Defined.

End HistoryExtras.
